(** * LISA: results table, sparse assembly and the public-data pipeline

    A shallow embedding of [lisa/utils.py] and
    [lisa/lisa_public_data/lisa.py].  Python values are modelled by small
    inductive types, exceptions by an explicit outcome type, and objects
    that are mutated in place by explicit state passing: a method takes the
    object and returns the object as it is left, together with the value
    returned or the exception raised. *)

From Stdlib Require Import ZArith String Ascii DecimalString OrderedTypeEx.
From stdpp Require Import base tactics option list strings sorting gmap.

Local Open Scope Z_scope.

(** ** Python values and exceptions *)

(** The exceptions the two modules raise or propagate, with the message
    where the source gives one. *)
Inductive exn : Type :=
  | IndexError (msg : string)
  | AssertionError (msg : string)
  | NameError (msg : string)
  | TypeError
  | ValueError
  | OverflowError
  | KeyError (key : string)
  | ZeroDivisionError
  | URLError
  | OSError.

(** The outcome of evaluating an expression: a value, or a raised
    exception. *)
Inductive outcome (A : Type) : Type :=
  | Ret (a : A)
  | Raise (e : exn).
Arguments Ret {A} a.
Arguments Raise {A} e.

Definition obind {A B} (m : outcome A) (k : A -> outcome B) : outcome B :=
  match m with
  | Ret a => k a
  | Raise e => Raise e
  end.

Notation "'do' x <- m ; k" := (obind m (fun x => k))
  (at level 10, x name, m at level 100, k at level 200,
   format "'[v' 'do'  x  <-  m ; '/' k ']'").

(** Cells of a results table: Python [int] and [str] values.  Cells of
    type [float] are outside the model, and so is what Python does with
    them: every table below is a table of [int] and [str] cells. *)
Inductive pyval : Type :=
  | PInt (z : Z)
  | PStr (s : string).

#[global] Instance pyval_eq_dec : EqDecision pyval.
Proof. solve_decision. Defined.

Definition tab : string := String (ascii_of_nat 9) EmptyString.
Definition newline : string := String (ascii_of_nat 10) EmptyString.
Definition dquote : string := String (ascii_of_nat 34) EmptyString.

(** [str(value)] *)
Definition py_str (v : pyval) : string :=
  match v with
  | PInt z => NilZero.string_of_int (Z.to_int z)
  | PStr s => s
  end.

(** [sep.join(parts)] *)
Fixpoint join (sep : string) (parts : list string) : string :=
  match parts with
  | [] => EmptyString
  | [p] => p
  | p :: ps => p +:+ sep +:+ join sep ps
  end.

(** [range(n)] and [range(a, b)] *)
Definition py_range (a b : Z) : list Z :=
  map (fun i => a + Z.of_nat i) (seq 0 (Z.to_nat (b - a))).

(** Resolution of a Python index against a list of length [n]: negative
    indices count from the end. *)
Definition norm_index (n : nat) (i : Z) : option nat :=
  if (0 <=? i) && (i <? Z.of_nat n) then Some (Z.to_nat i)
  else if (- Z.of_nat n <=? i) && (i <? 0) then Some (Z.to_nat (Z.of_nat n + i))
  else None.

(** [l[i]] *)
Definition py_getitem {A} (l : list A) (i : Z) : outcome A :=
  match norm_index (length l) i with
  | Some k =>
      match l !! k with
      | Some x => Ret x
      | None => Raise (IndexError "list index out of range")
      end
  | None => Raise (IndexError "list index out of range")
  end.

(** [l[i] = x] *)
Definition py_setitem {A} (l : list A) (i : Z) (x : A) : outcome (list A) :=
  match norm_index (length l) i with
  | Some k => Ret (<[k:=x]> l)
  | None => Raise (IndexError "list assignment index out of range")
  end.

(** [l.insert(i, x)]: the position is clamped into [0, len(l)] after a
    negative index has been counted from the end. *)
Definition py_insert {A} (l : list A) (i : Z) (x : A) : list A :=
  let n := Z.of_nat (length l) in
  let k := if i <? 0 then Z.max 0 (n + i) else Z.min i n in
  take (Z.to_nat k) l ++ x :: drop (Z.to_nat k) l.

(** [dict(pairs)]: a dictionary is kept as its items in insertion order; a
    repeated key keeps its first position and takes the last value. *)
Fixpoint dict_set {V} (d : list (string * V)) (k : string) (v : V)
  : list (string * V) :=
  match d with
  | [] => [(k, v)]
  | (k', v') :: d' =>
      if String.eqb k' k then (k', v) :: d' else (k', v') :: dict_set d' k v
  end.

Definition py_dict {V} (pairs : list (string * V)) : list (string * V) :=
  fold_left (fun d kv => dict_set d kv.1 kv.2) pairs [].

Definition dict_keys {V} (d : list (string * V)) : list string := map fst d.
Definition dict_values {V} (d : list (string * V)) : list V := map snd d.

(** ** [Log] *)

Module Log.

(** [verbose] is a [bool] or an [int]. *)
Inductive verbosity : Type :=
  | VBool (b : bool)
  | VInt (n : Z).

(** The text written to [target] is kept as the list of [print] calls. *)
Record t : Type := mk {
  target : list string;
  indents : Z;
  verbose : verbosity
}.

(** [isinstance(True, int)] holds in Python, so a [bool] reaches the
    second test too, as 0 or 1. *)
Definition enabled (self : t) : bool :=
  match verbose self with
  | VBool b => b || (indents self <? Z.b2z b)
  | VInt n => indents self <? n
  end.

Fixpoint tabs (n : nat) : string :=
  match n with
  | O => EmptyString
  | S n' => tab +:+ tabs n'
  end.

(** [append(text)] with the default [end] and [update_line]. *)
Definition append (self : t) (text : string) : t :=
  if enabled self then
    mk (target self ++ [tabs (Z.to_nat (indents self)) +:+ text +:+ newline])
       (indents self) (verbose self)
  else self.

(** [append(text, end, update_line)]: with [update_line] the line starts
    with a carriage return and ends without [end]. *)
Definition append_with (self : t) (text : string) (end_ : string)
    (update_line : bool) : t :=
  let linestart := if update_line then String (ascii_of_nat 13) EmptyString
                   else EmptyString in
  if enabled self then
    mk (target self
        ++ [linestart +:+ tabs (Z.to_nat (indents self)) +:+ text
            +:+ (if update_line then EmptyString else end_)])
       (indents self) (verbose self)
  else self.

(** [start_section(section_header)] *)
Definition start_section (self : t) (section_header : string) : t :=
  let self := append self section_header in
  mk (target self) (indents self + 1) (verbose self).

(** [end_section()] *)
Definition end_section (self : t) : t :=
  mk (target self) (indents self - 1) (verbose self).

(** [with self.section(header): body].  The context manager starts the
    section, hands the log to the body, and ends the section in a [finally]
    block, so also when the body raises. *)
Definition section {A} (self : t) (header : string)
    (body : t -> t * outcome A) : t * outcome A :=
  let self := start_section self header in
  let '(self, r) := body self in
  (end_section self, r).

End Log.

(** ** [LoadingBar]

    The state of a bar and the two methods that work on integers;
    [__str__] divides in floating point and is left out. *)

Module LoadingBar.

Record t : Type := mk {
  increments : Z;
  length : Z;
  label : string;
  progress : Z;
  cold_start : bool
}.

(** [LoadingBar(label, increments, length, cold_start)] *)
Definition __init__ (label : string) (increments : Z) (length : Z)
  (cold_start : bool) : t :=
  mk increments length label 0 cold_start.

(** [is_finished()] *)
Definition is_finished (self : t) : bool := increments self <=? progress self.

(** [increment()] *)
Definition increment (self : t) : t :=
  if negb (is_finished self) then
    mk (increments self) (length self) (label self) (progress self + 1)
       (cold_start self)
  else self.

End LoadingBar.

(** ** [LISA_Results] *)

Record LISA_Results : Type := mkResults {
  results_headers : list string;
  results_rows : list (list pyval)
}.

(** [zip] of a new first sequence with the tuples already zipped: it stops
    at the shorter of the two. *)
Fixpoint zip_cons {A} (xs : list A) (tuples : list (list A)) : list (list A) :=
  match xs, tuples with
  | x :: xs', t :: tuples' => (x :: t) :: zip_cons xs' tuples'
  | _, _ => []
  end.

(** [_transpose_table(table)]: [[list(l) for l in zip( *table)]].  [zip()]
    of no sequences is empty. *)
Fixpoint _transpose_table {A} (table : list (list A)) : list (list A) :=
  match table with
  | [] => []
  | [column] => map (fun x => [x]) column
  | column :: rest => zip_cons column (_transpose_table rest)
  end.

(** [LISA_Results(keys, columns)] *)
Definition LISA_Results__init__ (keys : list string) (columns : list (list pyval))
  : LISA_Results :=
  mkResults keys (_transpose_table columns).

(** [LISA_Results.fromdict( **d)].  The columns are passed as keyword
    arguments to a classmethod whose first parameter is named [cls]; a
    column of that name clashes with it, and the call itself raises
    [TypeError] before the body runs. *)
Definition fromdict (d : list (string * list pyval)) : outcome LISA_Results :=
  if bool_decide ("cls" ∈ dict_keys d) then Raise TypeError
  else Ret (LISA_Results__init__ (dict_keys d) (dict_values d)).

(** [len(self)] *)
Definition len (self : LISA_Results) : nat := length (results_rows self).

(** [todict()] *)
Definition todict (self : LISA_Results) : list (string * list pyval) :=
  py_dict (zip (results_headers self) (_transpose_table (results_rows self))).

(** The first position of [colname] in a list of headers. *)
Fixpoint index_of (colname : string) (headers : list string) : option nat :=
  match headers with
  | [] => None
  | h :: hs => if String.eqb h colname then Some O else S <$> index_of colname hs
  end.

(** A string as numpy keeps it.  An array of strings has one fixed width
    and pads shorter items with NUL characters, so that NUL characters at
    the end of a string are not told from padding: they are dropped, from
    the items of [np.array(headers)] and from the string the array is
    compared with. *)
Fixpoint np_str (s : string) : string :=
  match s with
  | EmptyString => EmptyString
  | String c s' =>
      match np_str s' with
      | EmptyString =>
          if Ascii.eqb c Ascii.zero then EmptyString else String c EmptyString
      | kept => String c kept
      end
  end.

(** [get_colnum(colname)]: [np.argwhere(np.array(headers) == colname)[0][0]],
    the first position at which the array of headers equals the name.
    With no such position, and also with no header at all, the indexing
    raises the [IndexError] that the method replaces by its own. *)
Definition get_colnum (self : LISA_Results) (colname : string) : outcome nat :=
  match index_of (np_str colname) (map np_str (results_headers self)) with
  | Some i => Ret i
  | None => Raise (IndexError ("Column " +:+ colname +:+ " not in results table"))
  end.

(** [[self.results_rows[row] for row in rows]] *)
Fixpoint select_rows (table : list (list pyval)) (rows : list Z)
  : outcome (list (list pyval)) :=
  match rows with
  | [] => Ret []
  | row :: rows' =>
      do r <- py_getitem table row;
      do rs <- select_rows table rows';
      Ret (r :: rs)
  end.

(** [subset(rows)], for [rows] a sequence of indices. *)
Definition subset (self : LISA_Results) (rows : list Z) : outcome LISA_Results :=
  do selected <- select_rows (results_rows self) rows;
  Ret (LISA_Results__init__ (results_headers self) (_transpose_table selected)).

(** [subset(rows)], for [rows] a single [int]. *)
Definition subset_int (self : LISA_Results) (row : Z) : outcome LISA_Results :=
  subset self [row].

(** The lines [to_tsv] joins: the headers, then the rows, each joined by
    tabs.  A header is a [str], and [str] of it is the header itself. *)
Definition tsv_lines (t : LISA_Results) : list string :=
  map (fun line => join tab line)
      (results_headers t :: map (map py_str) (results_rows t)).

(** [to_tsv(top_n)] *)
Definition to_tsv (self : LISA_Results) (top_n : Z) : outcome string :=
  do output_lines <- subset self (py_range 0 top_n);
  Ret (join newline (tsv_lines output_lines)).

(** [[rownum for rownum, row in enumerate(rows) if filter_func(row[colnum])]],
    with [rownum] the number of the first row. *)
Fixpoint filter_rownums (filter_func : pyval -> outcome bool) (colnum : nat)
    (rows : list (list pyval)) (rownum : Z) : outcome (list Z) :=
  match rows with
  | [] => Ret []
  | row :: rows' =>
      do value <- py_getitem row (Z.of_nat colnum);
      do keep <- filter_func value;
      do rest <- filter_rownums filter_func colnum rows' (rownum + 1);
      Ret (if keep then rownum :: rest else rest)
  end.

(** [filter_rows(filter_func, colname)] *)
Definition filter_rows (self : LISA_Results) (filter_func : pyval -> outcome bool)
    (colname : string) : outcome LISA_Results :=
  do colnum <- get_colnum self colname;
  do subset_rows <- filter_rownums filter_func colnum (results_rows self) 0;
  subset self subset_rows.

(** *** Mutating methods

    A mutating method maps the table to the table as it is left and the
    outcome of the call; what was written before an exception stays
    written.  The rows of a table are the fresh lists made by
    [_transpose_table] in the constructor, so no two rows of a table are
    the same object and an update of one row leaves the others alone. *)

(** [for row, value in zip(rows, data): row[colnum] = value] *)
Fixpoint set_cells (colnum : nat) (rows : list (list pyval)) (data : list pyval)
  : list (list pyval) * outcome unit :=
  match rows, data with
  | row :: rows', value :: data' =>
      match py_setitem row (Z.of_nat colnum) value with
      | Ret row' =>
          let '(done, r) := set_cells colnum rows' data' in (row' :: done, r)
      | Raise e => (row :: rows', Raise e)
      end
  | _, _ => (rows, Ret tt)
  end.

(** [update_column(name, data)] *)
Definition update_column (name : string) (data : list pyval) (self : LISA_Results)
  : LISA_Results * outcome unit :=
  match get_colnum self name with
  | Raise e => (self, Raise e)
  | Ret colnum =>
      let '(rows, r) := set_cells colnum (results_rows self) data in
      (mkResults (results_headers self) rows, r)
  end.

(** [for row, value in zip(rows, data): put(row, value)]: rows beyond the
    end of [data] are not visited. *)
Fixpoint put_cells (put : list pyval -> pyval -> list pyval)
    (rows : list (list pyval)) (data : list pyval) : list (list pyval) :=
  match rows, data with
  | row :: rows', value :: data' => put row value :: put_cells put rows' data'
  | _, _ => rows
  end.

(** [add_column(name, data, column_num)] *)
Definition add_column (name : string) (data : list pyval) (column_num : Z)
    (self : LISA_Results) : LISA_Results * outcome unit :=
  if bool_decide (name ∈ results_headers self) then
    (self, Raise (AssertionError "Column already exists"))
  else if column_num =? -1 then
    (mkResults (results_headers self ++ [name])
               (put_cells (fun row value => row ++ [value]) (results_rows self) data),
     Ret tt)
  else
    (mkResults (py_insert (results_headers self) column_num name)
               (put_cells (fun row value => py_insert row column_num value)
                          (results_rows self) data),
     Ret tt).

(** *** Sorting *)

(** [a < b] on cells: integers by value, text by code points; Python has no
    order between an [int] and a [str]. *)
Definition py_lt (a b : pyval) : outcome bool :=
  match a, b with
  | PInt x, PInt y => Ret (x <? y)
  | PStr s, PStr t => Ret (String.ltb s t)
  | _, _ => Raise TypeError
  end.

Section Sorted.
Context {K A : Type} (lt : K -> K -> outcome bool).

(** One step of insertion: the new item goes before the first item it is
    less than, hence after every item it is not less than. *)
Fixpoint insort (x : K * A) (acc : list (K * A)) : outcome (list (K * A)) :=
  match acc with
  | [] => Ret [x]
  | y :: ys =>
      do b <- lt x.1 y.1;
      if b then Ret (x :: y :: ys)
      else do r <- insort x ys; Ret (y :: r)
  end.

Fixpoint insort_all (acc l : list (K * A)) : outcome (list (K * A)) :=
  match l with
  | [] => Ret acc
  | x :: l' => do acc' <- insort x acc; insort_all acc' l'
  end.
End Sorted.

(** [[key(x) for x in l]]: the keys are all computed before any comparison. *)
Fixpoint keyed {A K} (key : A -> outcome K) (l : list A) : outcome (list (K * A)) :=
  match l with
  | [] => Ret []
  | x :: l' => do k <- key x; do r <- keyed key l'; Ret ((k, x) :: r)
  end.

(** [sorted(l, key = key)].  Python's sort is a stable comparison sort that
    orders by [<] alone; the stable arrangement of a list is unique, so a
    left-to-right insertion sort stands for it.  Each item after the first
    is compared with an earlier one, so that a list that mixes [int] and
    [str] keys raises [TypeError], as it does in Python. *)
Definition py_sorted {A} (key : A -> outcome pyval) (l : list A) : outcome (list A) :=
  do ks <- keyed key l;
  do r <- insort_all py_lt [] ks;
  Ret (map snd r).

(** The [key] argument of [sortby]: a column name or an index. *)
Inductive sort_key : Type :=
  | ByName (name : string)
  | ByIndex (i : Z).

(** [sortby(key, add_rank)] *)
Definition sortby (key : sort_key) (add_rank : bool) (self : LISA_Results)
  : LISA_Results * outcome unit :=
  let key' :=
    match key with
    | ByName name => do c <- get_colnum self name; Ret (Z.of_nat c)
    | ByIndex i => Ret i
    end in
  match (do k <- key'; py_sorted (fun col => py_getitem col k) (results_rows self)) with
  | Raise e => (self, Raise e)
  | Ret rows =>
      let self := mkResults (results_headers self) rows in
      if add_rank then
        let row_ranks := map PInt (py_range 1 (Z.of_nat (len self) + 1)) in
        match update_column "Rank" row_ranks self with
        | (self, Raise (IndexError _)) => add_column "Rank" row_ranks 0 self
        | r => r
        end
      else (self, Ret tt)
  end.

(** ** Machine integers

    numpy keeps a list of Python integers that all fit a signed 64-bit
    word as an array of [int64].  These are the values the sparse assembly
    is modelled for; larger integers and floating-point values make numpy
    choose other element types, which are outside the model. *)

Definition int64_min : Z := -9223372036854775808.
Definition int64_max : Z := 9223372036854775807.

Definition in_int64 (z : Z) : bool := (int64_min <=? z) && (z <=? int64_max).

(** A Python integer that fits a signed 64-bit word. *)
Record int64 : Type := mk_int64 {
  int64_val : Z;
  int64_range : Is_true (in_int64 int64_val)
}.

(** [int64] arithmetic wraps around. *)
Definition wrap_int64 (z : Z) : Z :=
  (z - int64_min) mod 18446744073709551616 + int64_min.

(** The whole number a [float64] holds after [z] has been converted to it:
    [z] itself up to 53 bits, and beyond that [z] rounded to 53 significant
    bits, a tie going to the even neighbour. *)
Definition round_float64 (z : Z) : Z :=
  let a := Z.abs z in
  if a <? 9007199254740992 then z
  else
    let e := Z.log2 a - 52 in
    let q := Z.shiftr a e in
    let r := a - Z.shiftl q e in
    let half := Z.shiftl 1 (e - 1) in
    let q' := if (half <? r) || ((r =? half) && Z.odd q) then q + 1 else q in
    Z.sgn z * Z.shiftl q' e.

(** ** [scipy.sparse], as far as [ragged_array_to_sparse_matrix] uses it

    A matrix in compressed-column form holds, for each column, its stored
    entries by row index; a stored entry may be an explicit zero.  The
    entries have one element type.  An entry of a [float64] matrix is kept
    as the whole number it holds: every [float64] that arises here comes
    from an [int64]. *)

Module sparse.

Inductive dtype : Type :=
  | Int64
  | Float64.

#[global] Instance dtype_eq_dec : EqDecision dtype.
Proof. solve_decision. Defined.

Record matrix : Type := mk {
  shape : Z * Z;
  element_type : dtype;
  columns : list (gmap Z Z)
}.


(** [np.array(data).dtype]: an empty list gives an array of [float64]. *)
Definition dtype_of (data : list int64) : dtype :=
  match data with
  | [] => Float64
  | _ => Int64
  end.

(** Entries given twice for the same cell are summed when coordinate
    triples are converted to compressed-column form, in the arithmetic of
    [int64]. *)
Definition add_entry (col : gmap Z Z) (r v : Z) : gmap Z Z :=
  match col !! r with
  | Some x => <[r := wrap_int64 (x + v)]> col
  | None => <[r := v]> col
  end.

Definition column_of (j : Z) (triples : list (Z * Z * Z)) : gmap Z Z :=
  foldl (fun col '(r, c, v) => if c =? j then add_entry col r v else col) ∅ triples.

Definition in_bounds (n : Z) (i : Z) : bool := (0 <=? i) && (i <? n).

(** [csc_matrix((data, (row, col)), shape = shape)].  The constructor
    checks the shape, converts the two index sequences to arrays of a
    machine integer type, and then checks the three arrays against each
    other and against the shape:
    - a negative dimension is a [ValueError];
    - a dimension or an index that does not fit a signed 64-bit word is an
      [OverflowError] of the conversion;
    - arrays of different lengths, and an index outside the shape, are a
      [ValueError]. *)
Definition csc_matrix (data : list int64) (row col : list Z) (shape : Z * Z)
  : outcome matrix :=
  if negb ((0 <=? shape.1) && (0 <=? shape.2)) then Raise ValueError
  else if negb (in_int64 shape.1 && in_int64 shape.2) then Raise OverflowError
  else if negb (forallb in_int64 row && forallb in_int64 col) then Raise OverflowError
  else if negb (bool_decide (length row = length data)
                && bool_decide (length col = length data)) then Raise ValueError
  else if negb (forallb (in_bounds shape.1) row && forallb (in_bounds shape.2) col)
  then Raise ValueError
  else Ret (mk shape (dtype_of data)
               (map (fun j => column_of j (zip (zip row col) (map int64_val data)))
                    (py_range 0 shape.2))).

(** The element type of blocks put together: [float64] as soon as one
    block has it. *)
Definition result_type (blocks : list matrix) : dtype :=
  if forallb (fun b => bool_decide (element_type b = Int64)) blocks
  then Int64 else Float64.

(** Conversion of a stored entry from one element type to another. *)
Definition cast (from to : dtype) (v : Z) : Z :=
  match from, to with
  | Int64, Float64 => round_float64 v
  | _, _ => v
  end.

(** [hstack(blocks)]: the blocks side by side, their entries converted to
    the common element type; the blocks must agree on the number of rows.
    With no block at all, the first one is looked for and not found. *)
Definition hstack (blocks : list matrix) : outcome matrix :=
  match blocks with
  | [] => Raise (IndexError "index 0 is out of bounds for axis 1 with size 0")
  | b :: bs =>
      if forallb (fun b' => (shape b').1 =? (shape b).1) bs then
        let to := result_type blocks in
        Ret (mk ((shape b).1, foldr Z.add 0 (map (fun b' => (shape b').2) blocks))
                to
                (concat (map (fun b' => map (fmap (cast (element_type b') to))
                                            (columns b'))
                             blocks)))
      else Raise ValueError
  end.

End sparse.

(** [[f(x) for x in l]], stopping at the first exception. *)
Fixpoint for_each {A B} (f : A -> outcome B) (l : list A) : outcome (list B) :=
  match l with
  | [] => Ret []
  | x :: l' => do y <- f x; do ys <- for_each f l'; Ret (y :: ys)
  end.

(** [np.zeros(n)] *)
Definition np_zeros (n : nat) : list Z := replicate n 0.

(** [ragged_array_to_sparse_matrix(indices, values, col_length)], for
    indices that are Python integers and values that fit [int64]. *)
Definition ragged_array_to_sparse_matrix
    (indices : list (list Z)) (values : list (list int64)) (col_length : Z)
  : outcome sparse.matrix :=
  do blocks <-
    for_each (fun '(index_column, val_column) =>
                sparse.csc_matrix val_column index_column
                                  (np_zeros (length val_column)) (col_length, 1))
             (zip indices values);
  sparse.hstack blocks.

(** ** The base class and its collaborators

    [LISA_Core], the gene catalogue and the configuration files are not
    part of these sources.  What [lisa.py] reads from them is taken as
    given: the attributes below are those the module uses, with the values
    the base class has put there. *)

(** A gene of a [GeneSet]: its location identifier and display symbol. *)
Record gene : Type := mkGene {
  location : string;
  symbol : string
}.

#[global] Instance gene_eq_dec : EqDecision gene.
Proof. solve_decision. Defined.

Definition get_locations (genes : list gene) : list string := map location genes.
Definition get_symbols (genes : list gene) : list string := map symbol genes.

(** Modelled from the spec: [match_user_provided_genes], a method of the
    gene catalogue, which is not in these sources.  Each name is looked up
    in the canonical gene set; a name that matches no gene is skipped, and
    a gene whose location is already in the result is not added again, so
    that locations stay unique within the [GeneSet]. *)
Fixpoint match_user_provided_genes (all_genes : string -> option gene)
    (names : list string) (selected : list gene) : list gene :=
  match names with
  | [] => selected
  | name :: names' =>
      match all_genes name with
      | Some g =>
          if bool_decide (location g ∈ get_locations selected)
          then match_user_provided_genes all_genes names' selected
          else match_user_provided_genes all_genes names' (selected ++ [g])
      | None => match_user_provided_genes all_genes names' selected
      end
  end.

(** The assay objects [_initialize_assays] constructs, as the arguments
    they are constructed with. *)
Inductive assay : Type :=
  | PeakRP_Assay (technology : string) (generate_rp_matrix : bool)
  | Accesibility_Assay (technology : string) (factor_gene_mask : list bool)
      (selection_model : Z * Z) (cores : Z) (generate_rp_matrix : bool).

(** The two configuration files, read into one parser. *)
Record config : Type := mkConfig {
  lisa_params_assays : list string;
  lisa_params_num_datasets_selected : Z;
  lisa_params_num_datasets_selected_anova : Z;
  lisa_params_rp_map_styles : list string;
  paths_h5_path : string -> string -> string;
  paths_rp_map : string -> string -> string -> string -> string;
  downloads_rp_maps : string -> string -> string -> string
}.

(** The files on disk: the stored matrix at each existing path. *)
Abbreviation files := (gmap string sparse.matrix).

Module LISA_Core.

Record t : Type := mk {
  species : string;
  isd_method : string;
  _config : config;
  log : Log.t;
  PACKAGE_PATH : string;
  REQURED_DATASET_VERSION : string;
  all_genes : string -> option gene;
  factor_metadata_factor : list string;
  rp_map_locs : list string;
  assays : list assay;
  fetch_from_cistrome : string -> string -> files -> files * outcome unit
}.

Definition set_log (self : t) (l : Log.t) : t :=
  mk (species self) (isd_method self) (_config self) l (PACKAGE_PATH self)
     (REQURED_DATASET_VERSION self) (all_genes self)
     (factor_metadata_factor self) (rp_map_locs self) (assays self)
     (fetch_from_cistrome self).

(** [add_assay(assay)] *)
Definition add_assay (self : t) (a : assay) : t :=
  mk (species self) (isd_method self) (_config self) (log self)
     (PACKAGE_PATH self) (REQURED_DATASET_VERSION self) (all_genes self)
     (factor_metadata_factor self) (rp_map_locs self) (assays self ++ [a])
     (fetch_from_cistrome self).

End LISA_Core.

(** ** [lisa.FromGenes] *)

Module LISA.

(** The names bound at module level in [lisa.py]. *)
Definition module_globals : list string :=
  ["os"; "LISA_Core"; "PACKAGE_PATH"; "REQURED_DATASET_VERSION";
   "base_config_path"; "assays"; "LR_BinarySearch_SampleSelectionModel";
   "LR_ChromatinModel"; "np"; "sparse"; "multiprocessing"; "configparser";
   "CONFIG_PATH"; "_config"; "LISA"].

(** [self.rp_map] is the name of a map style until the map is loaded. *)
Inductive rp_map_t : Type :=
  | RPName (name : string)
  | RPMatrix (m : sparse.matrix).

Record t : Type := mk {
  core : LISA_Core.t;
  num_datasets_selected : Z;
  num_datasets_selected_anova : Z;
  cores : Z;
  data_source : string;
  schedule_assays : list string;
  rp_map : rp_map_t;
  generate_rp_matrix : bool;
  factor_gene_mask : option (list bool);
  factor_mask_keys : option (list string)
}.

Definition set_core (self : t) (c : LISA_Core.t) : t :=
  mk c (num_datasets_selected self) (num_datasets_selected_anova self)
     (cores self) (data_source self) (schedule_assays self) (rp_map self)
     (generate_rp_matrix self) (factor_gene_mask self) (factor_mask_keys self).

Definition set_rp_map (self : t) (r : rp_map_t) : t :=
  mk (core self) (num_datasets_selected self) (num_datasets_selected_anova self)
     (cores self) (data_source self) (schedule_assays self) r
     (generate_rp_matrix self) (factor_gene_mask self) (factor_mask_keys self).

Definition set_factor_gene_mask (self : t) (m : list bool) : t :=
  mk (core self) (num_datasets_selected self) (num_datasets_selected_anova self)
     (cores self) (data_source self) (schedule_assays self) (rp_map self)
     (generate_rp_matrix self) (Some m) (factor_mask_keys self).

Definition set_factor_mask_keys (self : t) (k : list string) : t :=
  mk (core self) (num_datasets_selected self) (num_datasets_selected_anova self)
     (cores self) (data_source self) (schedule_assays self) (rp_map self)
     (generate_rp_matrix self) (factor_gene_mask self) (Some k).

Definition str_int (z : Z) : string := NilZero.string_of_int (Z.to_int z).

(** [a % b] on integers. *)
Definition py_mod (a b : Z) : outcome Z :=
  if b =? 0 then Raise ZeroDivisionError else Ret (a mod b).

(** [sorted(list(set(l)))] on strings: ascending by code point, each
    string once. *)
Fixpoint insert_str (a : string) (l : list string) : list string :=
  match l with
  | [] => [a]
  | b :: l' =>
      match String.compare a b with
      | Lt => a :: b :: l'
      | Eq => b :: l'
      | Gt => b :: insert_str a l'
      end
  end.

Definition sorted_set (l : list string) : list string := foldr insert_str [] l.

(** [_set_cores(cores)], with [cpu_count] the value of
    [multiprocessing.cpu_count()]. *)
Definition _set_cores (cpu_count num_datasets_selected cores : Z) : outcome Z :=
  if negb (-1 <=? cores) then Raise (AssertionError EmptyString)
  else
    let max_cores := cpu_count - 1 in
    let cores := if cores <=? -1 then max_cores else cores in
    Ret (Z.min (Z.min cores max_cores) num_datasets_selected).

(** The message of the assertion on the requested assays: in the literal,
    the braces after the backslash are doubled, so [format] prints them as
    braces and uses no argument. *)
Definition invalid_assay_message : string :=
  "An assay chosen by the user is not a valid choice: \{}".

Definition cores_warning (cores num_datasets_selected : Z) : string :=
  "WARNING: You've allocated " +:+ str_int cores +:+ " cores with "
  +:+ str_int num_datasets_selected +:+ " datasets selected." +:+ newline
  +:+ "To ensure maximum speed, allocate as many cores as datasets selected."
  +:+ newline
  +:+ "For better efficiency, make #datasets a multiple of #cores.".

(** [__init__(species, cores, assays, isd_method)].  [base] is the object
    as [super().__init__] leaves it. *)
Definition __init__ (base : LISA_Core.t) (cpu_count : Z) (cores : Z)
    (assays : list string) : outcome t :=
  let cfg := LISA_Core._config base in
  if negb (0 <? Z.of_nat (length assays)) then
    Raise (AssertionError "Must provide at least one assay to run.")
  else if negb (forallb (fun assay => bool_decide (assay ∈ lisa_params_assays cfg))
                        assays) then
    Raise (AssertionError invalid_assay_message)
  else
    let num_datasets_selected := lisa_params_num_datasets_selected cfg in
    let num_datasets_selected_anova := lisa_params_num_datasets_selected_anova cfg in
    do cores <- _set_cores cpu_count num_datasets_selected cores;
    if negb (num_datasets_selected <? num_datasets_selected_anova) then
      Raise (AssertionError "Anova must select more datasets than the regression model")
    else if negb ((0 <? num_datasets_selected_anova) && (0 <? num_datasets_selected)) then
      Raise (AssertionError "Number of datasets selected must be positive")
    else if negb (num_datasets_selected_anova <? 500) then Raise (AssertionError EmptyString)
    else if negb (num_datasets_selected <? 25) then Raise (AssertionError EmptyString)
    else
      do r <- py_mod num_datasets_selected cores;
      let base :=
        if negb (r =? 0) then
          LISA_Core.set_log base
            (Log.append (LISA_Core.log base) (cores_warning cores num_datasets_selected))
        else base in
      let data_source :=
        paths_h5_path cfg (LISA_Core.PACKAGE_PATH base) (LISA_Core.species base) in
      let schedule_assays := sorted_set assays in
      let rp_map := "basic" in
      let rp_map_styles := lisa_params_rp_map_styles cfg in
      if negb (bool_decide (rp_map ∈ rp_map_styles)) then
        Raise (AssertionError
                 ("RP map must be numpy/scipy.sparse array, or be one of provided maps: "
                  +:+ join "," rp_map_styles))
      else
        Ret (mk base num_datasets_selected num_datasets_selected_anova cores
                data_source schedule_assays (RPName rp_map)
                (negb (String.eqb rp_map "basic")) None None).

(** [sparse.load_npz(path)] *)
Definition load_npz (fs : files) (path : string) : outcome sparse.matrix :=
  match fs !! path with
  | Some m => Ret m
  | None => Raise OSError
  end.

(** [_load_rp_map()].  An exception that leaves the [try] block reaches
    [except error.URLError], where the name [error] is looked up first. *)
Definition _load_rp_map (self : t) (fs : files) : t * files * outcome sparse.matrix :=
  match rp_map self with
  | RPName name =>
      let base := core self in
      let cfg := LISA_Core._config base in
      let rp_map_path :=
        paths_rp_map cfg (LISA_Core.PACKAGE_PATH base) (LISA_Core.species base)
                     (LISA_Core.REQURED_DATASET_VERSION base) in
      let fetched :=
        if negb (bool_decide (is_Some (fs !! rp_map_path name))) then
          match LISA_Core.fetch_from_cistrome base
                  (downloads_rp_maps cfg (LISA_Core.species base)
                                     (LISA_Core.REQURED_DATASET_VERSION base) name)
                  (rp_map_path name) fs with
          | (fs, Ret _) => (self, fs, Ret (rp_map_path name))
          | (fs, Raise err) =>
              if negb (bool_decide ("error" ∈ module_globals)) then
                (self, fs, Raise (NameError "name 'error' is not defined"))
              else
                match err with
                | URLError =>
                    let log :=
                      Log.append (LISA_Core.log base)
                        ("Cannot connect to cistrome server, or cistrome server does not have the RP map requested. "
                         +:+ newline +:+ "Defaulting to " +:+ dquote +:+ "basic" +:+ dquote
                         +:+ " RP map instead.") in
                    (set_core self (LISA_Core.set_log base log), fs,
                     Ret (rp_map_path "basic"))
                | _ => (self, fs, Raise err)
                end
          end
        else (self, fs, Ret (rp_map_path name)) in
      match fetched with
      | (self, fs, Ret rp_map_path) =>
          match load_npz fs rp_map_path with
          | Ret m => (set_rp_map self (RPMatrix m), fs, Ret m)
          | Raise e => (self, fs, Raise e)
          end
      | (self, fs, Raise e) => (self, fs, Raise e)
      end
  | RPMatrix m => (self, fs, Ret m)
  end.

(** [np.isin(a, b)] *)
Definition np_isin (a b : list string) : list bool :=
  map (fun x => bool_decide (x ∈ b)) a.

(** [a[mask]] *)
Fixpoint masked {A} (a : list A) (mask : list bool) : list A :=
  match a, mask with
  | x :: a', b :: mask' => if b then x :: masked a' mask' else masked a' mask'
  | _, _ => []
  end.

(** [d[key]] *)
Fixpoint dict_getitem {V} (d : list (string * V)) (key : string) : outcome V :=
  match d with
  | [] => Raise (KeyError key)
  | (k, v) :: d' => if String.eqb k key then Ret v else dict_getitem d' key
  end.

(** [_get_factor_gene_mask()] *)
Definition _get_factor_gene_mask (self : t) : t * outcome (list bool * list string) :=
  let base := core self in
  let factor_genes :=
    match_user_provided_genes (LISA_Core.all_genes base)
                              (LISA_Core.factor_metadata_factor base) [] in
  let loc_symbol_dict :=
    py_dict (zip (get_locations factor_genes) (get_symbols factor_genes)) in
  let mask := np_isin (LISA_Core.rp_map_locs base) (get_locations factor_genes) in
  let self := set_factor_gene_mask self mask in
  match for_each (fun gene_loc => dict_getitem loc_symbol_dict gene_loc)
                 (masked (LISA_Core.rp_map_locs base) mask) with
  | Ret keys => (set_factor_mask_keys self keys, Ret (mask, keys))
  | Raise e => (self, Raise e)
  end.

(** The loop of [_initialize_assays] over the scheduled assays. *)
Fixpoint add_assays (self : t) (mask : list bool) (schedule : list string)
  : t * outcome unit :=
  match schedule with
  | [] => (self, Ret tt)
  | assay :: schedule' =>
      let base := core self in
      if String.eqb assay "Direct" then
        add_assays
          (set_core self
             (LISA_Core.add_assay base
                (PeakRP_Assay (LISA_Core.isd_method base) (generate_rp_matrix self))))
          mask schedule'
      else if String.eqb assay "DNase" || String.eqb assay "H3K27ac" then
        add_assays
          (set_core self
             (LISA_Core.add_assay base
                (Accesibility_Assay assay mask
                   (num_datasets_selected_anova self, num_datasets_selected self)
                   (cores self) (generate_rp_matrix self))))
          mask schedule'
      else
        (self, Raise (AssertionError ("Invalid assay encountered: " +:+ assay)))
  end.

(** [_initialize_assays()] *)
Definition _initialize_assays (self : t) : t * outcome unit :=
  let ready :=
    match factor_gene_mask self with
    | Some mask => (self, Ret mask)
    | None =>
        match _get_factor_gene_mask self with
        | (self, Ret (mask, _)) => (self, Ret mask)
        | (self, Raise e) => (self, Raise e)
        end
    end in
  match ready with
  | (self, Ret mask) => add_assays self mask (schedule_assays self)
  | (self, Raise e) => (self, Raise e)
  end.

(** [d.pop(key)] when the key is there: the value and the rest. *)
Fixpoint dict_pop {V} (d : list (string * V)) (key : string)
  : option (V * list (string * V)) :=
  match d with
  | [] => None
  | (k, v) :: d' =>
      if String.eqb k key then Some (v, d')
      else
        match dict_pop d' key with
        | Some (x, rest) => Some (x, (k, v) :: rest)
        | None => None
        end
  end.

(** [d.get(key, default)] *)
Fixpoint dict_get {V} (d : list (string * V)) (key : string) (default : V) : V :=
  match d with
  | [] => default
  | (k, v) :: d' => if String.eqb k key then v else dict_get d' key default
  end.

(** The loop of [_format_results] over [assay_info.items()].  [info.pop]
    takes the scores out of the dictionary the caller passed in; the
    attribute [factor_mask_keys] is read after that, and reading it before
    it was ever set ends the loop ([None] for the columns). *)
Fixpoint z_score_columns (factor_mask_keys : option (list string))
    (factors : list string) (assay_info : list (string * list (string * list pyval)))
    (new_columns : list (string * list pyval))
  : list (string * list (string * list pyval)) * option (list (string * list pyval)) :=
  match assay_info with
  | [] => ([], Some new_columns)
  | (assay, info) :: rest =>
      match dict_pop info "factor_acc_z_scores" with
      | Some (z_scores, info) =>
          match factor_mask_keys with
          | Some keys =>
              let z_dict := py_dict (zip keys z_scores) in
              let new_columns :=
                dict_set new_columns (assay +:+ "factor_accessibility_z_score")
                         (map (fun factor => dict_get z_dict factor (PStr "NA")) factors) in
              let '(rest, columns) :=
                z_score_columns factor_mask_keys factors rest new_columns in
              ((assay, info) :: rest, columns)
          | None => ((assay, info) :: rest, None)
          end
      | None =>
          let '(rest, columns) :=
            z_score_columns factor_mask_keys factors rest new_columns in
          ((assay, info) :: rest, columns)
      end
  end.

(** How a call of [_format_results] ends: as the base class ends it, or
    with the [AttributeError] of an attribute that was never set. *)
Inductive formatted (R : Type) : Type :=
  | Formatted (r : outcome R)
  | AttributeError (name : string).
Arguments Formatted {R} r.
Arguments AttributeError {R} name.

(** [_format_results(assay_pvals, assay_info, gene_info_dict, **kwargs)],
    with [super_format_results] the method of the base class.  It returns
    [assay_info] as the call leaves it.  A keyword given both in
    [new_columns] and in [kwargs] is a [TypeError] of the call itself. *)
Definition _format_results {P G R : Type}
    (super_format_results :
       P -> list (string * list (string * list pyval)) -> G ->
       list (string * list pyval) -> outcome R)
    (self : t) (assay_pvals : P)
    (assay_info : list (string * list (string * list pyval)))
    (gene_info_dict : G) (kwargs : list (string * list pyval))
  : list (string * list (string * list pyval)) * formatted R :=
  match z_score_columns (factor_mask_keys self)
                        (LISA_Core.factor_metadata_factor (core self))
                        assay_info [] with
  | (assay_info, Some new_columns) =>
      if forallb (fun key => negb (bool_decide (key ∈ dict_keys kwargs)))
                 (dict_keys new_columns)
      then (assay_info,
            Formatted (super_format_results assay_pvals assay_info gene_info_dict
                                            (new_columns ++ kwargs)))
      else (assay_info, Formatted (Raise TypeError))
  | (assay_info, None) => (assay_info, AttributeError "factor_mask_keys")
  end.

End LISA.

(** * Vocabulary of the properties *)

(** ** Order of cells *)

(** A strict order on all cells that agrees with [py_lt] wherever Python
    defines it; integers are put before text only to make it total. *)
Definition py_ltb (a b : pyval) : bool :=
  match a, b with
  | PInt x, PInt y => x <? y
  | PStr s, PStr t => String.ltb s t
  | PInt _, PStr _ => true
  | PStr _, PInt _ => false
  end.

Definition is_int (v : pyval) : Prop := ∃ z, v = PInt z.
Definition is_str (v : pyval) : Prop := ∃ s, v = PStr s.

(** The natural order of a column: by value for [int] cells,
    lexicographic for [str] cells. *)
Definition natural_le (a b : pyval) : Prop :=
  match a, b with
  | PInt x, PInt y => x ≤ y
  | PStr s, PStr t => String.leb s t = true
  | _, _ => False
  end.

(** Keys never decrease from left to right. *)
Definition ascending {K A : Type} (ltb : K -> K -> bool) (l : list (K * A)) : Prop :=
  StronglySorted (fun x y => ltb y.1 x.1 = false) l.

(** ** Lines of text *)

(** The number of line breaks in a text; a text of [n] line breaks has
    [n + 1] lines. *)
Fixpoint count_newlines (s : string) : nat :=
  match s with
  | EmptyString => 0
  | String c s' =>
      ((if Ascii.eqb c (ascii_of_nat 10) then 1 else 0) + count_newlines s')%nat
  end.

(** ** Shape of a table *)

(** The length of the shortest line of a table; 0 for no line. *)
Definition shortest {A} (table : list (list A)) : nat :=
  match table with
  | [] => 0%nat
  | line :: table' => foldr (fun l m => Nat.min (length l) m) (length line) table'
  end.



(** ** Entries of a sparse column *)

(** The sum of the values given for row [r] among the entries of a
    column. *)
Definition sum_at (r : Z) (entries : list (Z * Z)) : Z :=
  foldr (fun '(i, v) s => if i =? r then v + s else s) 0 entries.

(** The element type of an assembled matrix: [int64] when every column
    has a value, [float64] as soon as one column has none. *)
Definition assembled_type (values : list (list int64)) : sparse.dtype :=
  if forallb (fun val_column => match val_column with [] => false | _ => true end)
             values
  then sparse.Int64 else sparse.Float64.

(** An [int64] as a matrix of element type [t] holds it. *)
Definition stored (t : sparse.dtype) (v : Z) : Z := sparse.cast sparse.Int64 t v.

(** [z] fits a signed 64-bit word. *)
Definition fits_int64 (z : Z) : Prop := int64_min ≤ z ≤ int64_max.

(** ** Names of columns *)

(** [n] NUL characters. *)
Fixpoint nuls (n : nat) : string :=
  match n with
  | O => EmptyString
  | S n' => String Ascii.zero (nuls n')
  end.

(** Two names that differ at most in the NUL characters they end with. *)
Definition same_name (a b : string) : Prop :=
  ∃ n m, a +:+ nuls n = b +:+ nuls m.

(** ** Sorted tables *)

(** Row [r1] may stand before row [r2]: the cell of [r1] in column [k] is
    not above that of [r2] in the natural order. *)
Definition cell_le (k : nat) (r1 r2 : list pyval) : Prop :=
  ∃ a b, r1 !! k = Some a ∧ r2 !! k = Some b ∧ natural_le a b.


(** Column [k] holds an [int] in every row, or a [str] in every row. *)
Definition column_homogeneous (k : nat) (rows : list (list pyval)) : Prop :=
  Forall (fun row => ∃ v, row !! k = Some v ∧ is_int v) rows
  ∨ Forall (fun row => ∃ v, row !! k = Some v ∧ is_str v) rows.

(** The column a sort key stands for: for a name, the first header that
    numpy finds equal to it; for an index, the position it counts to. *)
Definition resolve_key (self : LISA_Results) (key : sort_key) : option nat :=
  match key with
  | ByName name => index_of (np_str name) (map np_str (results_headers self))
  | ByIndex i => norm_index (length (results_headers self)) i
  end.


(** ** The invariant of a table *)

(** Headers are unique, and every row has one value per header. *)
Definition table_invariant (t : LISA_Results) : Prop :=
  NoDup (results_headers t)
  ∧ Forall (fun row => length row = length (results_headers t)) (results_rows t).

(** ** The pipeline *)

(** The checks [__init__] makes on its arguments and the configuration,
    apart from [cores]. *)
Definition init_preconditions (base : LISA_Core.t) (assays : list string) : Prop :=
  let cfg := LISA_Core._config base in
  assays ≠ []
  ∧ Forall (fun assay => assay ∈ lisa_params_assays cfg) assays
  ∧ 0 < lisa_params_num_datasets_selected cfg < 25
  ∧ lisa_params_num_datasets_selected cfg
    < lisa_params_num_datasets_selected_anova cfg < 500
  ∧ "basic" ∈ lisa_params_rp_map_styles cfg.

(** The kinds the scheduler itself dispatches on. *)
Definition dispatched (assay : string) : Prop :=
  assay = "Direct" ∨ assay = "DNase" ∨ assay = "H3K27ac".

(** The assay [_initialize_assays] constructs for a kind it dispatches
    on. *)
Definition assay_for (self : LISA.t) (mask : list bool) (kind : string) : assay :=
  if String.eqb kind "Direct" then
    PeakRP_Assay (LISA_Core.isd_method (LISA.core self)) (LISA.generate_rp_matrix self)
  else
    Accesibility_Assay kind mask
      (LISA.num_datasets_selected_anova self, LISA.num_datasets_selected self)
      (LISA.cores self) (LISA.generate_rp_matrix self).

(** The mask [_initialize_assays] works with: the one the object has, or
    else the one [_get_factor_gene_mask] computes. *)
Definition mask_in_use (self : LISA.t) : list bool :=
  match LISA.factor_gene_mask self with
  | Some mask => mask
  | None =>
      LISA.np_isin (LISA_Core.rp_map_locs (LISA.core self))
        (get_locations
           (match_user_provided_genes (LISA_Core.all_genes (LISA.core self))
              (LISA_Core.factor_metadata_factor (LISA.core self)) []))
  end.

(** An [info] dictionary as [_format_results] leaves it. *)
Definition without_z_scores (info : list (string * list pyval))
  : list (string * list pyval) :=
  match LISA.dict_pop info "factor_acc_z_scores" with
  | Some (_, rest) => rest
  | None => info
  end.

(** The column [_format_results] makes of the scores of one assay. *)
Definition z_score_column (keys factors : list string) (z_scores : list pyval)
  : list pyval :=
  map (fun factor => LISA.dict_get (py_dict (zip keys z_scores)) factor (PStr "NA"))
      factors.

(** The columns [_format_results] adds: one for each assay whose [info]
    has scores, in the order of the assays. *)
Definition z_score_columns_of (keys factors : list string)
    (assay_info : list (string * list (string * list pyval)))
  : list (string * list pyval) :=
  omap (fun '(assay, info) =>
          match LISA.dict_pop info "factor_acc_z_scores" with
          | Some (z_scores, _) =>
              Some (assay +:+ "factor_accessibility_z_score",
                    z_score_column keys factors z_scores)
          | None => None
          end)
       assay_info.

(** ** Example data *)

Definition example_config : config :=
  mkConfig ["Direct"; "H3K27ac"; "DNase"] 10 200 ["basic"; "enhanced"]
    (fun package_path species => package_path +:+ "/data/" +:+ species +:+ ".h5")
    (fun package_path species version name =>
       package_path +:+ "/data/" +:+ species +:+ "/" +:+ version +:+ "/" +:+ name
       +:+ ".npz")
    (fun species version name =>
       "http://cistrome.org/" +:+ species +:+ "/" +:+ version +:+ "/" +:+ name).

Definition example_catalogue (name : string) : option gene :=
  if String.eqb name "SPI1" then Some (mkGene "chr11:47376411" "SPI1")
  else if String.eqb name "PU.1" then Some (mkGene "chr11:47376411" "SPI1")
  else if String.eqb name "GATA1" then Some (mkGene "chrX:48786554" "GATA1")
  else None.

(** A host where every download fails. *)
Definition example_base : LISA_Core.t :=
  LISA_Core.mk "hg38" "chipseq" example_config (Log.mk [] 0 (Log.VBool true))
    "/pkg" "2.1" example_catalogue
    ["GATA1"; "NOSUCH"; "PU.1"; "SPI1"]
    ["chr1:11869"; "chr11:47376411"; "chr2:38814"; "chrX:48786554"]
    []
    (fun url path fs => (fs, Raise URLError)).

(** The object constructed on a host with 11 logical cores for 10
    workers. *)
Definition example_lisa : LISA.t :=
  LISA.mk example_base 10 200 10 "/pkg/data/hg38.h5" ["DNase"; "Direct"]
          (LISA.RPName "basic") false None None.

(** * Properties *)

(** ** Transposition *)

Section Transpose.
Context {A : Type}.
Implicit Types (c : list A) (T : list (list A)).

Lemma zip_cons_length c T :
  length (zip_cons c T) = (length c `min` length T)%nat.
Proof.
  revert T; induction c as [|x c IH]; intros [|t T]; simpl; auto.
Qed.

Lemma transpose_singletons c :
  c ≠ [] → _transpose_table (map (fun x => [x]) c) = [c].
Proof.
  induction c as [|x c IH]; [done|intros _].
  destruct c as [|y c]; [done|].
  change (_transpose_table (map (fun x => [x]) (x :: y :: c)))
    with (zip_cons [x] (_transpose_table (map (fun x => [x]) (y :: c)))).
  by rewrite IH.
Qed.

(** Putting a column in front of a table of rows and transposing gives
    that column in front of the transposed rows. *)
Lemma transpose_zip_cons c T :
  c ≠ [] → length c = length T →
  _transpose_table (zip_cons c T) = c :: _transpose_table T.
Proof.
  revert T; induction c as [|x c IH]; [done|].
  intros [|t T] _ Hlen; [done|]. simpl in Hlen.
  destruct c as [|y c], T as [|t' T]; try done.
  change (zip_cons (x :: y :: c) (t :: t' :: T))
    with ((x :: t) :: zip_cons (y :: c) (t' :: T)).
  change (zip_cons (y :: c) (t' :: T))
    with ((y :: t') :: zip_cons c T) at 1.
  change (_transpose_table ((x :: t) :: (y :: t') :: zip_cons c T))
    with (zip_cons (x :: t) (_transpose_table ((y :: t') :: zip_cons c T))).
  change ((y :: t') :: zip_cons c T) with (zip_cons (y :: c) (t' :: T)).
  rewrite IH by (done || (simpl in *; lia)).
  done.
Qed.

Lemma transpose_length T n :
  T ≠ [] → Forall (fun c => length c = n) T → length (_transpose_table T) = n.
Proof.
  induction T as [|c T IH]; [done|intros _ Hall].
  apply Forall_cons in Hall as [Hc Hall].
  destruct T as [|c' T].
  - simpl. by rewrite length_map.
  - change (_transpose_table (c :: c' :: T))
      with (zip_cons c (_transpose_table (c' :: T))).
    rewrite zip_cons_length, IH by done. lia.
Qed.

(** Transposing twice gives back a rectangular table with no empty
    line. *)
Lemma transpose_involutive T n :
  (0 < n)%nat → Forall (fun c => length c = n) T →
  _transpose_table (_transpose_table T) = T.
Proof.
  intros Hn; induction T as [|c T IH]; [done|intros Hall].
  apply Forall_cons in Hall as [Hc Hall].
  assert (c ≠ []) by (intros ->; simpl in Hc; lia).
  destruct T as [|c' T].
  - simpl. by apply transpose_singletons.
  - change (_transpose_table (c :: c' :: T))
      with (zip_cons c (_transpose_table (c' :: T))).
    rewrite transpose_zip_cons, IH; try done.
    by rewrite (transpose_length _ n).
Qed.
End Transpose.

(** ** Dictionaries *)

Lemma dict_set_fresh {V} (d : list (string * V)) k v :
  k ∉ dict_keys d → dict_set d k v = d ++ [(k, v)].
Proof.
  induction d as [|[k' v'] d IH]; [done|]; simpl; intros Hk.
  apply not_elem_of_cons in Hk as [Hne Hk].
  destruct (String.eqb_spec k' k); [congruence|].
  by rewrite IH.
Qed.

Lemma py_dict_fresh {V} (pairs acc : list (string * V)) :
  NoDup (dict_keys (acc ++ pairs)) →
  fold_left (fun d kv => dict_set d kv.1 kv.2) pairs acc = acc ++ pairs.
Proof.
  revert acc; induction pairs as [|[k v] pairs IH]; intros acc Hnd; simpl.
  - by rewrite app_nil_r.
  - rewrite dict_set_fresh.
    + rewrite IH; rewrite <- app_assoc; done.
    + unfold dict_keys in *. rewrite map_app in Hnd.
      apply NoDup_app in Hnd as (_ & Hdisj & _).
      intros Hin. apply (Hdisj k Hin). simpl. left.
Qed.

(** A list of items with distinct keys is its own dictionary. *)
Lemma py_dict_NoDup {V} (pairs : list (string * V)) :
  NoDup (dict_keys pairs) → py_dict pairs = pairs.
Proof. intros Hnd. unfold py_dict. by rewrite py_dict_fresh. Qed.

Lemma zip_keys_values {V} (d : list (string * V)) :
  zip (dict_keys d) (dict_values d) = d.
Proof. induction d as [|[k v] d IH]; simpl; [done|]. by rewrite IH. Qed.

(** ** Round trip through the row-major table *)

(** C10, as the code has it. For a mapping from distinct column names,
    none of them "cls", to non-empty value lists of one common length,
    [fromdict] returns a table, and [todict] of that table gives back the
    mapping: the same names, in the same order, with the same value
    lists. *)
Theorem fromdict_todict (d : list (string * list pyval)) (n : nat) :
  NoDup (dict_keys d) →
  (0 < n)%nat →
  Forall (fun kv => length kv.2 = n) d →
  "cls" ∉ dict_keys d →
  ∃ table, fromdict d = Ret table ∧ todict table = d.
Proof.
  intros Hnd Hn Hlen Hcls. unfold fromdict.
  rewrite bool_decide_eq_false_2 by done.
  eexists. split; [done|]. unfold todict, LISA_Results__init__; simpl.
  rewrite (transpose_involutive _ n), zip_keys_values; [|done|].
  - by apply py_dict_NoDup.
  - unfold dict_values. by apply Forall_map.
Qed.

Lemma fromdict_todict_witness :
  ∃ table,
    fromdict [("gene", [PStr "SPI1"; PStr "GATA1"]); ("p_value", [PInt 1; PInt 5])]
    = Ret table
    ∧ todict table
      = [("gene", [PStr "SPI1"; PStr "GATA1"]); ("p_value", [PInt 1; PInt 5])].
Proof.
  apply (fromdict_todict _ 2).
  - apply (bool_decide_unpack _). vm_compute. exact I.
  - lia.
  - repeat constructor.
  - apply (bool_decide_unpack _). vm_compute. exact I.
Defined.

(** C10, counterexample: a mapping with one column, named "cls", of one
    value.  The names are distinct and the value lists non-empty and of
    one length, yet no table is constructed: the keyword [cls] clashes
    with the first parameter of the classmethod, and the call raises
    [TypeError]. *)
Lemma fromdict_column_named_cls :
  let d := [("cls", [PInt 1])] in
  NoDup (dict_keys d)
  ∧ Forall (fun kv => length kv.2 = 1%nat) d
  ∧ fromdict d = Raise TypeError.
Proof.
  split; [|split].
  - apply (bool_decide_unpack _). vm_compute. exact I.
  - repeat constructor.
  - reflexivity.
Qed.

(** ** Indexing *)

Lemma norm_index_nat n (i : nat) :
  (i < n)%nat → norm_index n (Z.of_nat i) = Some i.
Proof.
  intros Hi. unfold norm_index.
  rewrite (proj2 (Z.leb_le _ _)), (proj2 (Z.ltb_lt _ _)) by lia.
  simpl. by rewrite Nat2Z.id.
Qed.

Lemma norm_index_ge n (i : nat) :
  (n ≤ i)%nat → norm_index n (Z.of_nat i) = None.
Proof.
  intros Hi. unfold norm_index.
  rewrite (proj2 (Z.ltb_ge _ _)) by lia.
  rewrite andb_false_r. rewrite (proj2 (Z.ltb_ge (Z.of_nat i) 0)) by lia.
  by rewrite andb_false_r.
Qed.

Lemma py_getitem_nat {A} (l : list A) (i : nat) x :
  l !! i = Some x → py_getitem l (Z.of_nat i) = Ret x.
Proof.
  intros Hx. unfold py_getitem.
  rewrite norm_index_nat by (by eapply lookup_lt_Some). by rewrite Hx.
Qed.

Lemma py_getitem_ge {A} (l : list A) (i : nat) :
  (length l ≤ i)%nat →
  py_getitem l (Z.of_nat i) = Raise (IndexError "list index out of range").
Proof. intros Hi. unfold py_getitem. by rewrite norm_index_ge. Qed.

(** Selecting a run of consecutive rows: all of them when the run lies
    inside the table, an [IndexError] when it goes past its end. *)
Lemma select_rows_seq table (s n : nat) :
  (s ≤ length table)%nat →
  select_rows table (map Z.of_nat (seq s n)) =
  if decide (s + n ≤ length table)%nat then Ret (take n (drop s table))
  else Raise (IndexError "list index out of range").
Proof.
  revert s; induction n as [|n IH]; intros s Hs; cbn [seq map select_rows].
  - rewrite decide_True by lia. done.
  - destruct (decide (s < length table)%nat) as [Hlt|Hge].
    + destruct (lookup_lt_is_Some_2 table s Hlt) as [row Hrow].
      rewrite (py_getitem_nat _ _ _ Hrow); cbn [obind].
      rewrite IH by lia.
      destruct (decide (S s + n ≤ length table)%nat);
        [rewrite decide_True by lia|rewrite decide_False by lia]; simpl; [|done].
      by rewrite (drop_S _ _ _ Hrow).
    + rewrite py_getitem_ge by lia. cbn [obind]. by rewrite decide_False by lia.
Qed.

Lemma select_rows_range table (top_n : Z) :
  select_rows table (py_range 0 top_n) =
  if decide (top_n ≤ Z.of_nat (length table)) then Ret (take (Z.to_nat top_n) table)
  else Raise (IndexError "list index out of range").
Proof.
  unfold py_range. rewrite Z.sub_0_r.
  rewrite (map_ext _ Z.of_nat) by (intros; lia).
  rewrite select_rows_seq by lia. simpl.
  destruct (decide (top_n ≤ Z.of_nat (length table)));
    [rewrite decide_True by lia|rewrite decide_False by lia]; done.
Qed.

(** ** [to_tsv] *)

(** Within the table, [to_tsv] joins the header and the first [top_n]
    rows. *)
Lemma to_tsv_within (self : LISA_Results) (top_n : Z) :
  Forall (fun row => length row = length (results_headers self)) (results_rows self) →
  results_headers self ≠ [] →
  top_n ≤ Z.of_nat (len self) →
  to_tsv self top_n =
  Ret (join newline
         (map (join tab)
              (results_headers self
               :: map (map py_str) (take (Z.to_nat top_n) (results_rows self))))).
Proof.
  intros Hrows Hhdr Htop. unfold to_tsv, subset, len in *.
  rewrite select_rows_range, decide_True by done. simpl.
  destruct (results_headers self) as [|h hs] eqn:Eh; [done|].
  rewrite (transpose_involutive _ (length (h :: hs))); [done|simpl; lia|].
  by apply Forall_take.
Qed.

Lemma count_newlines_app (s t : string) :
  count_newlines (s +:+ t) = (count_newlines s + count_newlines t)%nat.
Proof. induction s as [|c s IH]; simpl; [done|]. rewrite IH. lia. Qed.

Lemma count_newlines_join_tab (cells : list string) :
  Forall (fun cell => count_newlines cell = 0%nat) cells →
  count_newlines (join tab cells) = 0%nat.
Proof.
  induction 1 as [|cell cells Hcell _ IH]; [done|].
  destruct cells as [|cell' cells]; [done|].
  change (join tab (cell :: cell' :: cells))
    with (cell +:+ tab +:+ join tab (cell' :: cells)).
  rewrite !count_newlines_app, Hcell, IH. done.
Qed.

Lemma count_newlines_join_newline (lines : list string) :
  Forall (fun line => count_newlines line = 0%nat) lines →
  count_newlines (join newline lines) = pred (length lines).
Proof.
  induction 1 as [|line lines Hline _ IH]; [done|].
  destruct lines as [|line' lines]; [by simpl|].
  change (join newline (line :: line' :: lines))
    with (line +:+ newline +:+ join newline (line' :: lines)).
  rewrite !count_newlines_app, Hline, IH. done.
Qed.

(** When no header and no cell has a line break in it, the text returned
    for [0 <= top_n <= M] has [top_n] line breaks, that is [top_n + 1]
    lines. *)
Lemma to_tsv_line_count (self : LISA_Results) (top_n : Z) :
  Forall (fun row => length row = length (results_headers self)) (results_rows self) →
  results_headers self ≠ [] →
  Forall (fun h => count_newlines h = 0%nat) (results_headers self) →
  Forall (Forall (fun v => count_newlines (py_str v) = 0%nat)) (results_rows self) →
  0 ≤ top_n ≤ Z.of_nat (len self) →
  ∃ text, to_tsv self top_n = Ret text
          ∧ Z.of_nat (count_newlines text) + 1
            = Z.min top_n (Z.of_nat (len self)) + 1.
Proof.
  intros Hrows Hhdr Hh Hcells Htop.
  rewrite to_tsv_within by (done || lia). eexists; split; [done|].
  rewrite count_newlines_join_newline.
  - simpl. rewrite !length_map, length_take. unfold len in *. lia.
  - apply Forall_map. constructor; [by apply count_newlines_join_tab|].
    apply Forall_map. apply Forall_take.
    eapply Forall_impl; [exact Hcells|]. intros row Hrow. simpl.
    apply count_newlines_join_tab. by apply Forall_map.
Qed.

(** C1, as the code has it. For a table of M rows with one value per header
    and at least one header, and for [top_n] at most M, [to_tsv] returns
    the header line followed by the first [top_n] rows (no row when [top_n]
    is negative), each joined by tabs and the lines joined by newlines:
    [min(top_n, M) + 1] lines for a [top_n] that is not negative.  When
    [top_n] exceeds M the call raises [IndexError]. *)
Theorem to_tsv_top_n (self : LISA_Results) (top_n : Z) :
  Forall (fun row => length row = length (results_headers self)) (results_rows self) →
  results_headers self ≠ [] →
  (top_n ≤ Z.of_nat (len self) →
     let shown := take (Z.to_nat top_n) (results_rows self) in
     to_tsv self top_n =
       Ret (join newline
              (map (join tab) (results_headers self :: map (map py_str) shown)))
     ∧ (0 ≤ top_n →
        Z.of_nat (length (results_headers self :: map (map py_str) shown)) =
        Z.min top_n (Z.of_nat (len self)) + 1))
  ∧ (Z.of_nat (len self) < top_n →
     to_tsv self top_n = Raise (IndexError "list index out of range")).
Proof.
  intros Hrows Hhdr. split; intros Htop.
  - split; [by apply to_tsv_within|]. intros H0. simpl.
    rewrite length_map, length_take. unfold len in *. lia.
  - unfold to_tsv, subset, len in *.
    by rewrite select_rows_range, decide_False by lia.
Qed.

Lemma to_tsv_top_n_witness :
  to_tsv (mkResults ["gene"; "score"]
            [[PStr "SPI1"; PInt 1]; [PStr "GATA1"; PInt 2]; [PStr "MYC"; PInt 3]]) 2
  = Ret ("gene" +:+ tab +:+ "score" +:+ newline +:+
         "SPI1" +:+ tab +:+ "1" +:+ newline +:+
         "GATA1" +:+ tab +:+ "2").
Proof.
  refine (proj1 (proj1 (to_tsv_top_n
    (mkResults ["gene"; "score"]
       [[PStr "SPI1"; PInt 1]; [PStr "GATA1"; PInt 2]; [PStr "MYC"; PInt 3]]) 2
    _ _) _)).
  - repeat constructor.
  - simpl; discriminate.
  - apply Z.leb_le; reflexivity.
Defined.

(** C1, counterexample: with 2 rows and [top_n = 3] the call raises instead
    of returning the 2 rows. *)
Lemma to_tsv_beyond_rows_raises :
  to_tsv (mkResults ["gene"] [[PStr "SPI1"]; [PStr "GATA1"]]) 3
  = Raise (IndexError "list index out of range").
Proof. reflexivity. Qed.

(** ** Sorting *)

Lemma string_ltb_irrefl s : String.ltb s s = false.
Proof.
  unfold String.ltb. destruct (String.compare s s) eqn:E; try done.
  pose proof (String.compare_antisym s s) as H. rewrite E in H. done.
Qed.

Lemma string_ltb_trans s t u :
  String.ltb s t = true → String.ltb t u = true → String.ltb s u = true.
Proof.
  unfold String.ltb.
  destruct (String.compare s t) eqn:E1; try done.
  destruct (String.compare t u) eqn:E2; try done. intros _ _.
  apply String_as_OT.cmp_lt in E1, E2.
  pose proof (String_as_OT.lt_trans _ _ _ E1 E2) as H.
  apply String_as_OT.cmp_lt in H. unfold String_as_OT.cmp in H. by rewrite H.
Qed.




Lemma py_lt_int a b : is_int a → is_int b → py_lt a b = Ret (py_ltb a b).
Proof. by intros [x ->] [y ->]. Qed.

Lemma py_lt_str a b : is_str a → is_str b → py_lt a b = Ret (py_ltb a b).
Proof. by intros [x ->] [y ->]. Qed.



(** Whatever the comparison answers, a sort that returns has only
    rearranged its input. *)
Section SortedPermutation.
Context {K A : Type} (lt : K → K → outcome bool).

Lemma insort_perm (x : K * A) acc r :
  insort lt x acc = Ret r → r ≡ₚ acc ++ [x].
Proof.
  revert r; induction acc as [|y ys IH]; simpl; intros r.
  - by intros [= <-].
  - destruct (lt x.1 y.1) as [[|]|]; simpl; [| |done].
    + intros [= <-]. by rewrite (Permutation_app_comm (y :: ys) [x]).
    + destruct (insort lt x ys) as [r'|] eqn:E; simpl; [|done].
      intros [= <-]. by rewrite (IH r').
Qed.

Lemma insort_all_perm (l acc r : list (K * A)) :
  insort_all lt acc l = Ret r → r ≡ₚ acc ++ l.
Proof.
  revert acc; induction l as [|x l IH]; intros acc; simpl.
  - intros [= <-]. by rewrite app_nil_r.
  - destruct (insort lt x acc) as [acc'|] eqn:E; simpl; [|done].
    intros Hr. rewrite (IH _ Hr), (insort_perm _ _ _ E), <- app_assoc. done.
Qed.
End SortedPermutation.

Lemma keyed_snd {A K} (key : A → outcome K) (l : list A) ks :
  keyed key l = Ret ks → map snd ks = l.
Proof.
  revert ks; induction l as [|x l IH]; simpl; intros ks.
  - by intros [= <-].
  - destruct (key x) as [k|]; simpl; [|done].
    destruct (keyed key l) as [r|]; simpl; [|done].
    intros [= <-]. simpl. by rewrite (IH r).
Qed.

Lemma py_sorted_perm {A} (key : A → outcome pyval) (l r : list A) :
  py_sorted key l = Ret r → r ≡ₚ l.
Proof.
  unfold py_sorted.
  destruct (keyed key l) as [ks|] eqn:Hks; simpl; [|done].
  destruct (insort_all py_lt [] ks) as [r'|] eqn:Hr; simpl; [|done].
  intros [= <-]. apply insort_all_perm in Hr. simpl in Hr.
  by rewrite Hr, (keyed_snd _ _ _ Hks).
Qed.

Section InsertionSort.
Context {K A : Type} `{EqDecision K}.
Context (ltb : K → K → bool).
Context (ltb_irrefl : ∀ a, ltb a a = false).
Context (ltb_trans : ∀ a b c, ltb a b = true → ltb b c = true → ltb a c = true).

Implicit Types (x y : K * A) (acc l r : list (K * A)).


Lemma insort_total x acc : ∃ r, insort (fun a b => Ret (ltb a b)) x acc = Ret r.
Proof.
  induction acc as [|y ys [r IH]]; simpl; [by eexists|].
  destruct (ltb x.1 y.1); [by eexists|]. rewrite IH; simpl. by eexists.
Qed.



End InsertionSort.

Section InsertionSortExt.
Context {K A : Type} (lt : K → K → outcome bool) (ltb : K → K → bool).
Context (P : K → Prop).
Context (lt_ltb : ∀ a b, P a → P b → lt a b = Ret (ltb a b)).

Lemma insort_ext (x : K * A) acc :
  P x.1 → Forall (fun y => P y.1) acc →
  insort lt x acc = insort (fun a b => Ret (ltb a b)) x acc.
Proof using lt_ltb.
  intros Hx; induction 1 as [|y ys Hy _ IH]; simpl; [done|].
  rewrite lt_ltb by done. simpl. by rewrite IH.
Qed.

Lemma insort_all_ext (l acc : list (K * A)) :
  Forall (fun y => P y.1) acc → Forall (fun y => P y.1) l →
  insort_all lt acc l = insort_all (fun a b => Ret (ltb a b)) acc l.
Proof using lt_ltb.
  revert acc; induction l as [|x l IH]; intros acc Hacc Hl; simpl; [done|].
  apply Forall_cons in Hl as [Hx Hl].
  rewrite insort_ext by done.
  destruct (insort_total ltb x acc) as [acc' E]. rewrite E; simpl.
  apply IH; [|done]. rewrite (insort_perm _ _ _ _ E).
  apply Forall_app; split; [done|by constructor].
Qed.
End InsertionSortExt.



(** *** The rows of a table sorted on a column *)

Lemma keyed_column (k : nat) (i : Z) (rows : list (list pyval)) :
  Forall (fun row => norm_index (length row) i = Some k) rows →
  Forall (fun row => is_Some (row !! k)) rows →
  ∃ ks, keyed (fun col => py_getitem col i) rows = Ret ks
        ∧ map snd ks = rows ∧ Forall (fun p => p.2 !! k = Some p.1) ks.
Proof.
  induction 1 as [|row rows Hi _ IH]; intros Hk; simpl.
  - by exists [].
  - apply Forall_cons in Hk as [[v Hv] Hk].
    destruct (IH Hk) as (ks & -> & Hrows & Hks).
    unfold py_getitem. rewrite Hi, Hv. simpl.
    exists ((v, row) :: ks). simpl. rewrite Hrows.
    split; [done|]. split; [done|]. by constructor.
Qed.


(** ** Columns of a table *)

Lemma index_of_Some name hs p :
  index_of name hs = Some p → hs !! p = Some name.
Proof.
  revert p; induction hs as [|h hs IH]; simpl; intros p; [done|].
  destruct (String.eqb_spec h name) as [->|_]; [by intros [= <-]|].
  destruct (index_of name hs) as [q|]; simpl; [|done].
  intros [= <-]. by apply IH.
Qed.

Lemma index_of_None name hs : index_of name hs = None → name ∉ hs.
Proof.
  induction hs as [|h hs IH]; simpl; [intros _; apply not_elem_of_nil|].
  destruct (String.eqb_spec h name) as [->|Hne]; [done|].
  destruct (index_of name hs) as [q|]; simpl; [done|].
  intros _. apply not_elem_of_cons. split; [congruence|by apply IH].
Qed.

Lemma index_of_lt name hs p :
  index_of name hs = Some p → (p < length hs)%nat.
Proof. intros H%index_of_Some. by eapply lookup_lt_Some. Qed.

(** A column found by name is a column of the table; a name found nowhere
    is no header. *)
Lemma column_position_lt name (hs : list string) p :
  index_of (np_str name) (map np_str hs) = Some p → (p < length hs)%nat.
Proof. intros H%index_of_lt. by rewrite length_map in H. Qed.

Lemma get_colnum_lt (self : LISA_Results) name c :
  get_colnum self name = Ret c → (c < length (results_headers self))%nat.
Proof.
  unfold get_colnum.
  destruct (index_of _ _) as [i|] eqn:E; [|done].
  intros [= <-]. by eapply column_position_lt.
Qed.


Lemma py_insert_length {A} (l : list A) i x :
  length (py_insert l i x) = S (length l).
Proof.
  unfold py_insert. rewrite length_app; simpl.
  rewrite length_take, length_drop. destruct (i <? 0); lia.
Qed.

Lemma py_insert_perm {A} (l : list A) i x : py_insert l i x ≡ₚ x :: l.
Proof.
  unfold py_insert. rewrite <- Permutation_middle. by rewrite take_drop.
Qed.


(** Assigning to a column leaves the length of every row as it was,
    whether or not the loop runs to its end. *)
Lemma set_cells_lengths colnum rows data rows' r n :
  set_cells colnum rows data = (rows', r) →
  Forall (fun row => length row = n) rows →
  Forall (fun row => length row = n) rows'.
Proof.
  revert data rows' r; induction rows as [|row rows IH];
    intros data rows' r; simpl.
  - by intros [= <- _].
  - destruct data as [|value data]; [by intros [= <- _]|].
    unfold py_setitem.
    destruct (norm_index (length row) (Z.of_nat colnum)) as [k|];
      [|by intros [= <- _]].
    destruct (set_cells colnum rows data) as [done' r'] eqn:E.
    intros [= <- _] Hall. apply Forall_cons in Hall as [Hrow Hall].
    constructor; [by rewrite length_insert|by eapply IH].
Qed.

Lemma set_cells_length colnum rows data rows' r :
  set_cells colnum rows data = (rows', r) → length rows' = length rows.
Proof.
  revert data rows' r; induction rows as [|row rows IH];
    intros data rows' r; simpl.
  - by intros [= <- _].
  - destruct data as [|value data]; [by intros [= <- _]|].
    destruct (py_setitem row (Z.of_nat colnum) value); [|by intros [= <- _]].
    destruct (set_cells colnum rows data) as [done' r'] eqn:E.
    intros [= <- _]. simpl. f_equal. by eapply IH.
Qed.

(** With the column inside every row, the assignment loop writes each
    value into its row and ends normally. *)
Lemma set_cells_put colnum rows data :
  Forall (fun row => (colnum < length row)%nat) rows →
  set_cells colnum rows data =
  (put_cells (fun row value => <[colnum:=value]> row) rows data, Ret tt).
Proof.
  intros Hall; revert data.
  induction Hall as [|row rows Hrow _ IH]; intros data; simpl; [done|].
  destruct data as [|value data]; [done|].
  unfold py_setitem. rewrite norm_index_nat by done. by rewrite IH.
Qed.

Lemma put_cells_lengths put rows data n :
  (∀ row value, length (put row value) = S (length row)) →
  (length rows ≤ length data)%nat →
  Forall (fun row => length row = n) rows →
  Forall (fun row => length row = S n) (put_cells put rows data).
Proof.
  intros Hput. revert data; induction rows as [|row rows IH];
    intros data Hlen Hall; simpl; [constructor|].
  destruct data as [|value data]; simpl in Hlen; [lia|].
  apply Forall_cons in Hall as [Hrow Hall].
  constructor; [by rewrite Hput, Hrow|apply IH; [lia|done]].
Qed.



(** ** [sortby] *)



(** The same table, evaluated: equal scores keep their order, and the new
    "Rank" column stands first. *)
Example sortby_ranked_example :
  sortby (ByName "score") true
    (mkResults ["gene"; "score"]
       [[PStr "SPI1"; PInt 3]; [PStr "MYC"; PInt 1];
        [PStr "GATA1"; PInt 3]; [PStr "JUN"; PInt 2]])
  = (mkResults ["Rank"; "gene"; "score"]
       [[PInt 1; PStr "MYC"; PInt 1]; [PInt 2; PStr "JUN"; PInt 2];
        [PInt 3; PStr "SPI1"; PInt 3]; [PInt 4; PStr "GATA1"; PInt 3]],
     Ret tt).
Proof. reflexivity. Qed.


(** ** The invariant of a table *)

Lemma update_column_invariant name data self self' r :
  table_invariant self →
  update_column name data self = (self', r) →
  table_invariant self'.
Proof.
  intros [Hnd Hrows]. unfold update_column.
  destruct (get_colnum self name) as [colnum|e]; [|by intros [= <- _]].
  destruct (set_cells colnum (results_rows self) data) as [rows r'] eqn:E.
  intros [= <- _]. split; [done|]. simpl. by eapply set_cells_lengths.
Qed.

Lemma add_column_invariant name data column_num self self' :
  table_invariant self →
  (length (results_rows self) ≤ length data)%nat →
  add_column name data column_num self = (self', Ret tt) →
  table_invariant self'.
Proof.
  intros [Hnd Hrows] Hlen. unfold add_column.
  destruct (bool_decide (name ∈ results_headers self)) eqn:Hin; [done|].
  apply bool_decide_eq_false in Hin.
  destruct (column_num =? -1); intros [= <-]; split; simpl.
  - apply NoDup_app. split; [done|]. split; [|apply NoDup_singleton].
    intros x Hx ->%list_elem_of_singleton. done.
  - rewrite length_app; simpl. rewrite Nat.add_1_r.
    apply put_cells_lengths; [|done|done].
    intros row value. rewrite length_app; simpl. lia.
  - rewrite py_insert_perm. by constructor.
  - rewrite py_insert_length.
    apply put_cells_lengths; [|done|done].
    intros row value. apply py_insert_length.
Qed.

Lemma sortby_invariant key add_rank self self' :
  table_invariant self →
  sortby key add_rank self = (self', Ret tt) →
  table_invariant self'.
Proof.
  intros [Hnd Hrows]. unfold sortby.
  destruct (do k <- _; py_sorted _ (results_rows self)) as [rows|e] eqn:E;
    [|done].
  assert (rows ≡ₚ results_rows self) as Hperm.
  { destruct key as [name|i]; simpl in E.
    - destruct (get_colnum self name); simpl in E; [|done].
      by eapply py_sorted_perm.
    - by eapply py_sorted_perm. }
  assert (table_invariant (mkResults (results_headers self) rows)) as Hinv.
  { split; [done|]. simpl. by rewrite Hperm. }
  destruct add_rank; [|by intros [= <-]].
  destruct (update_column "Rank" _ _) as [self2 [[]|e]] eqn:Hupd.
  - intros [= <-]. by eapply update_column_invariant.
  - assert (table_invariant self2) as Hinv2
      by (by eapply update_column_invariant).
    assert (length (results_rows self2) = length rows) as Hlen2.
    { revert Hupd. unfold update_column.
      destruct (get_colnum _ "Rank") as [colnum|e']; [|by intros [= <- _]].
      simpl. destruct (set_cells colnum rows _) as [rows2 r2] eqn:E2.
      intros [= <- _]. simpl. by eapply set_cells_length. }
    destruct e; try (by intros [= <-]).
    intros Hadd. eapply add_column_invariant; [exact Hinv2| |exact Hadd].
    rewrite Hlen2. unfold len; simpl.
    rewrite length_map. unfold py_range. rewrite length_map, length_seq. lia.
Qed.

(** C9, as the code has it. On a table with unique headers and one value
    per header in every row, [update_column] and [sortby] leave such a
    table whenever they return, and so does [add_column] when it is given
    at least as many values as there are rows. *)
Theorem mutators_preserve_invariant (self : LISA_Results) :
  table_invariant self →
  (∀ name data column_num self',
     (length (results_rows self) ≤ length data)%nat →
     add_column name data column_num self = (self', Ret tt) →
     table_invariant self')
  ∧ (∀ name data self',
       update_column name data self = (self', Ret tt) → table_invariant self')
  ∧ (∀ key add_rank self',
       sortby key add_rank self = (self', Ret tt) → table_invariant self').
Proof.
  intros Hinv. split; [|split].
  - intros name data column_num self' Hlen Hadd.
    by eapply add_column_invariant.
  - intros name data self' Hupd. by eapply update_column_invariant.
  - intros key add_rank self' Hsort. by eapply sortby_invariant.
Qed.

Lemma mutators_preserve_invariant_witness :
  table_invariant
    (add_column "tissue" [PStr "blood"; PStr "liver"] (-1)
       (mkResults ["gene"; "score"]
          [[PStr "SPI1"; PInt 3]; [PStr "MYC"; PInt 1]])).1
  ∧ table_invariant
      (update_column "score" [PInt 7; PInt 8]
         (mkResults ["gene"; "score"]
            [[PStr "SPI1"; PInt 3]; [PStr "MYC"; PInt 1]])).1
  ∧ table_invariant
      (sortby (ByName "score") true
         (mkResults ["gene"; "score"]
            [[PStr "SPI1"; PInt 3]; [PStr "MYC"; PInt 1]])).1.
Proof.
  assert (table_invariant
            (mkResults ["gene"; "score"]
               [[PStr "SPI1"; PInt 3]; [PStr "MYC"; PInt 1]])) as Hinv.
  { split; [apply (bool_decide_unpack _); vm_compute; exact I|repeat constructor]. }
  destruct (mutators_preserve_invariant _ Hinv) as (Hadd & Hupd & Hsort).
  split; [|split].
  - eapply (Hadd "tissue" [PStr "blood"; PStr "liver"] (-1)); [simpl; lia|reflexivity].
  - eapply (Hupd "score" [PInt 7; PInt 8]). reflexivity.
  - eapply (Hsort (ByName "score") true). reflexivity.
Defined.

(** C9, counterexample: [add_column] with fewer values than rows returns
    normally and leaves a row without a value for the new header. *)
Lemma add_column_short_data_breaks_invariant :
  let before := mkResults ["gene"] [[PStr "SPI1"]; [PStr "MYC"]] in
  let after := add_column "score" [PInt 1] 0 before in
  table_invariant before
  ∧ after = (mkResults ["score"; "gene"] [[PInt 1; PStr "SPI1"]; [PStr "MYC"]], Ret tt)
  ∧ ¬ table_invariant after.1.
Proof.
  split; [|split].
  - split; [apply (bool_decide_unpack _); vm_compute; exact I|repeat constructor].
  - reflexivity.
  - intros [_ Hrows]. simpl in Hrows.
    apply Forall_cons in Hrows as [_ Hrows].
    apply Forall_cons in Hrows as [Hrow _]. simpl in Hrow. lia.
Qed.

(** ** Machine integers *)

Lemma in_int64_spec z : in_int64 z = true ↔ fits_int64 z.
Proof.
  unfold in_int64, fits_int64. by rewrite andb_true_iff, !Z.leb_le.
Qed.

Lemma int64_fits (v : int64) : fits_int64 (int64_val v).
Proof. destruct v as [z Hz]. apply in_int64_spec. by apply Is_true_true. Qed.

Lemma wrap_int64_fits z : fits_int64 z → wrap_int64 z = z.
Proof.
  unfold fits_int64, wrap_int64, int64_min, int64_max. intros Hz.
  rewrite Z.mod_small; lia.
Qed.

Lemma wrap_int64_range z : fits_int64 (wrap_int64 z).
Proof.
  unfold fits_int64, wrap_int64, int64_min, int64_max.
  pose proof (Z.mod_pos_bound (z - -9223372036854775808) 18446744073709551616).
  lia.
Qed.

(** Wrapping after every addition is wrapping once at the end. *)
Lemma wrap_int64_add_l a b : wrap_int64 (wrap_int64 a + b) = wrap_int64 (a + b).
Proof.
  unfold wrap_int64. f_equal.
  replace ((a - int64_min) mod 18446744073709551616 + int64_min + b - int64_min)
    with ((a - int64_min) mod 18446744073709551616 + b) by lia.
  rewrite Zplus_mod_idemp_l. f_equal. lia.
Qed.


(** ** Sparse assembly *)


(** The entries of one assembled column, all given in column 0. *)
Lemma column_of_zeros (ic vc : list Z) (n : nat) (acc : gmap Z Z) :
  (length vc ≤ n)%nat →
  foldl (fun col '(r, c, v) => if c =? 0 then sparse.add_entry col r v else col)
        acc (zip (zip ic (replicate n 0)) vc)
  = foldl (fun col '(r, v) => sparse.add_entry col r v) acc (zip ic vc).
Proof.
  revert n vc acc; induction ic as [|r ic IH]; intros n vc acc Hn; [done|].
  destruct vc as [|v vc]; [by destruct n|].
  destruct n as [|n]; simpl in *; [lia|]. apply IH. lia.
Qed.


Lemma in_bounds_spec n i : sparse.in_bounds n i = true ↔ 0 ≤ i < n.
Proof. unfold sparse.in_bounds. rewrite andb_true_iff, Z.leb_le, Z.ltb_lt. done. Qed.

Lemma forallb_zeros n : forallb (sparse.in_bounds 1) (np_zeros n) = true.
Proof. unfold np_zeros. induction n as [|n IH]; simpl; done. Qed.

Lemma forallb_zeros_int64 n : forallb in_int64 (np_zeros n) = true.
Proof. unfold np_zeros. induction n as [|n IH]; simpl; done. Qed.

Lemma forallb_in_int64 (l : list Z) :
  forallb in_int64 l = true ↔ Forall fits_int64 l.
Proof.
  rewrite forallb_forall, Forall_forall. split; intros Hl x Hx.
  - apply in_int64_spec, Hl. by apply list_elem_of_In.
  - apply in_int64_spec, Hl. by apply list_elem_of_In.
Qed.

(** A column that is well formed is built, as a one-column matrix; its
    entries are summed up row by row. *)
Lemma csc_matrix_column (ic : list Z) (vc : list int64) (col_length : Z) :
  0 ≤ col_length ≤ int64_max → length ic = length vc →
  Forall (fun i => 0 ≤ i < col_length) ic →
  sparse.csc_matrix vc ic (np_zeros (length vc)) (col_length, 1)
  = Ret (sparse.mk (col_length, 1) (sparse.dtype_of vc)
           [foldl (fun col '(r, v) => sparse.add_entry col r v) ∅
                  (zip ic (map int64_val vc))]).
Proof.
  intros Hcl Hlen Hic. unfold sparse.csc_matrix. cbn [fst snd].
  rewrite (proj2 (Z.leb_le 0 col_length)) by lia.
  rewrite (proj2 (in_int64_spec col_length))
    by (unfold fits_int64, int64_min; lia).
  rewrite forallb_zeros_int64, forallb_zeros, !andb_true_r.
  rewrite (proj2 (forallb_in_int64 ic)).
  2:{ eapply Forall_impl; [exact Hic|]. intros i Hi.
      unfold fits_int64, int64_min. cbv beta in Hi. lia. }
  rewrite !bool_decide_eq_true_2
    by (done || (unfold np_zeros; by rewrite length_replicate)).
  assert (forallb (sparse.in_bounds col_length) ic = true) as ->.
  { apply forallb_forall. intros i Hi. apply in_bounds_spec.
    rewrite Forall_forall in Hic. apply Hic. by apply list_elem_of_In. }
  cbn [negb andb Z.leb Z.compare]. change (py_range 0 1) with [0]. cbn [map].
  unfold sparse.column_of, np_zeros.
  by rewrite column_of_zeros by (by rewrite length_map).
Qed.

(** What the constructor raises for a column: [ValueError] or
    [OverflowError], and [ValueError] when the number of rows and the
    indices fit a signed 64-bit word. *)
Lemma csc_matrix_raises (ic : list Z) (vc : list int64) (col_length : Z) e :
  sparse.csc_matrix vc ic (np_zeros (length vc)) (col_length, 1) = Raise e →
  (e = ValueError ∨ e = OverflowError)
  ∧ (col_length ≤ int64_max → Forall fits_int64 ic → e = ValueError).
Proof.
  unfold sparse.csc_matrix. cbn [fst snd].
  destruct (Z.leb_spec 0 col_length) as [Hcl|Hcl]; cbn [andb negb Z.leb Z.compare];
    [|intros [= <-]; by split; [left|]].
  destruct (in_int64 col_length) eqn:Hfit; cbn [andb negb in_int64];
    [|intros [= <-]; split; [by right|]; intros Hmax _;
      rewrite <- not_true_iff_false, in_int64_spec in Hfit;
      exfalso; apply Hfit; unfold fits_int64, int64_min; lia].
  change (in_int64 1) with true. cbn [negb].
  rewrite forallb_zeros_int64, andb_true_r.
  destruct (forallb in_int64 ic) eqn:Hidx; cbn [negb];
    [|intros [= <-]; split; [by right|]; intros _ Hall;
      apply forallb_in_int64 in Hall; congruence].
  repeat (match goal with |- context [if ?b then _ else _] => destruct b end);
    intros [= <-]; by split; [left|].
Qed.

(** A column whose sequences differ in length, or with an index outside
    the rows, is refused. *)
Lemma csc_matrix_malformed (ic : list Z) (vc : list int64) (col_length : Z) :
  length ic ≠ length vc ∨ (∃ i, i ∈ ic ∧ ¬ (0 ≤ i < col_length)) →
  ∃ e, sparse.csc_matrix vc ic (np_zeros (length vc)) (col_length, 1) = Raise e.
Proof.
  intros Hbad. unfold sparse.csc_matrix. cbn [fst snd].
  destruct (negb _); [by eexists|].
  destruct (negb _); [by eexists|].
  destruct (negb _); [by eexists|].
  destruct (decide (length ic = length vc)) as [Hlen|Hlen].
  - rewrite bool_decide_eq_true_2 by done. cbn [andb].
    destruct (negb (bool_decide _)); [by eexists|].
    destruct Hbad as [Hbad|(i & Hi & Hout)]; [done|].
    destruct (forallb (sparse.in_bounds col_length) ic) eqn:Hall;
      cbn [andb negb]; [|by eexists].
    exfalso. apply Hout, in_bounds_spec.
    rewrite forallb_forall in Hall. apply Hall. by apply list_elem_of_In.
  - rewrite bool_decide_eq_false_2 by done. by eexists.
Qed.

(** A comprehension with a call that raises is ended by the first call
    that raises. *)
Lemma for_each_first_raise {A B} (f : A → outcome B) (l : list A) (j : nat) x e0 :
  l !! j = Some x → f x = Raise e0 →
  ∃ k y e, (k ≤ j)%nat ∧ l !! k = Some y ∧ f y = Raise e
           ∧ for_each f l = Raise e.
Proof.
  revert j; induction l as [|z l IH]; intros j Hj Hx; [done|]. simpl.
  destruct (f z) as [b|e] eqn:Hz.
  - destruct j as [|j]; simpl in Hj; [congruence|].
    destruct (IH j Hj Hx) as (k & y & e & Hk & Hy & Hfy & Hall).
    exists (S k), y, e. rewrite Hall. simpl. repeat split; (lia || done).
  - exists 0%nat, z, e. simpl. repeat split; (lia || done).
Qed.

(** C4, as the code has it. If a column that both sequences have has an
    index outside [[0, col_length)], or index and value sequences of
    different lengths, the assembly fails.  The sparse constructor raises
    [ValueError], which is the failure the specification calls
    [ShapeError], or [OverflowError]; it is [ValueError] whenever the
    number of rows and the indices of the columns up to that one fit a
    signed 64-bit word. *)
Theorem ragged_array_malformed_column_fails
    (indices : list (list Z)) (values : list (list int64)) (col_length : Z)
    (j : nat) (index_column : list Z) (val_column : list int64) :
  indices !! j = Some index_column →
  values !! j = Some val_column →
  length index_column ≠ length val_column
  ∨ (∃ i, i ∈ index_column ∧ ¬ (0 ≤ i < col_length)) →
  ∃ e,
    ragged_array_to_sparse_matrix indices values col_length = Raise e
    ∧ (e = ValueError ∨ e = OverflowError)
    ∧ (col_length ≤ int64_max →
       Forall (Forall fits_int64) (take (S j) indices) →
       e = ValueError).
Proof.
  intros Hi Hv Hbad. unfold ragged_array_to_sparse_matrix.
  destruct (csc_matrix_malformed index_column val_column col_length Hbad)
    as [e0 He0].
  destruct (for_each_first_raise
              (fun '(index_column, val_column) =>
                 sparse.csc_matrix val_column index_column
                                   (np_zeros (length val_column)) (col_length, 1))
              (zip indices values) j (index_column, val_column) e0)
    as (k & [ic vc] & e & Hk & Hy & Hfy & ->); [|done|].
  { apply lookup_zip_with_Some. eauto. }
  exists e. split; [done|].
  destruct (csc_matrix_raises ic vc col_length e Hfy) as [Hkind Hvalue].
  split; [done|]. intros Hcl Hfit. apply Hvalue; [done|].
  apply lookup_zip_with_Some in Hy as (ic' & vc' & [= <- <-] & Hic & _).
  rewrite Forall_forall in Hfit. apply Hfit.
  apply (list_elem_of_lookup_2 _ k). rewrite lookup_take_lt by lia. done.
Qed.

Lemma ragged_array_malformed_column_fails_witness :
  ∃ e,
    ragged_array_to_sparse_matrix
      [[0; 1]; [2; 5]]
      [[mk_int64 10 I; mk_int64 20 I]; [mk_int64 30 I; mk_int64 40 I]] 3
    = Raise e
    ∧ (e = ValueError ∨ e = OverflowError)
    ∧ (3 ≤ int64_max →
       Forall (Forall fits_int64) (take 2 [[0; 1]; [2; 5]]) →
       e = ValueError).
Proof.
  apply (ragged_array_malformed_column_fails
           _ _ _ 1%nat [2; 5] [mk_int64 30 I; mk_int64 40 I]).
  - reflexivity.
  - reflexivity.
  - right. exists 5. split; [|lia].
    apply (bool_decide_unpack _). vm_compute. exact I.
Defined.

(** C4, counterexample: an index beyond the machine word.  The index 2^64
    is outside [[0, 3)], and the assembly fails, but not with the
    [ValueError] of an index outside the shape: the index cannot be
    converted to a machine integer, and the conversion raises
    [OverflowError] before any shape is looked at. *)
Lemma ragged_array_index_beyond_word :
  ragged_array_to_sparse_matrix [[18446744073709551616]] [[mk_int64 1 I]] 3
  = Raise OverflowError.
Proof. reflexivity. Qed.

(** A column that only one of the two sequences has is not looked at, so
    that nothing in it makes the assembly fail. *)
Example ragged_array_unpaired_column :
  ragged_array_to_sparse_matrix [[0]; [7; 8]] [[mk_int64 1 I]] 3
  = Ret (sparse.mk (3, 1) sparse.Int64 [{[0 := 1]}]).
Proof. reflexivity. Qed.

(** The blocks of columns that are well formed. *)
Lemma for_each_columns (indices : list (list Z)) (values : list (list int64))
    (col_length : Z) :
  0 ≤ col_length ≤ int64_max →
  Forall2 (fun ic vc => length ic = length vc
                        ∧ Forall (fun i => 0 ≤ i < col_length) ic)
          indices values →
  for_each (fun '(index_column, val_column) =>
              sparse.csc_matrix val_column index_column
                                (np_zeros (length val_column)) (col_length, 1))
           (zip indices values)
  = Ret (zip_with
           (fun ic vc =>
              sparse.mk (col_length, 1) (sparse.dtype_of vc)
                [foldl (fun col '(r, v) => sparse.add_entry col r v) ∅
                       (zip ic (map int64_val vc))])
           indices values).
Proof.
  intros Hcl. induction 1 as [|ic vc indices values (Hlen & Hic) _ IH];
    simpl; [done|].
  rewrite csc_matrix_column by done. simpl. by rewrite IH.
Qed.

(** One-column blocks of one height, side by side: the entries of every
    block are converted to the element type of the whole. *)
Lemma hstack_columns (col_length : Z) (indices : list (list Z))
    (values : list (list int64)) :
  indices ≠ [] →
  Forall2 (fun ic vc => length ic = length vc) indices values →
  sparse.hstack
    (zip_with
       (fun ic vc =>
          sparse.mk (col_length, 1) (sparse.dtype_of vc)
            [foldl (fun col '(r, v) => sparse.add_entry col r v) ∅
                   (zip ic (map int64_val vc))])
       indices values)
  = Ret (sparse.mk (col_length, Z.of_nat (length indices))
           (assembled_type values)
           (zip_with
              (fun ic vc =>
                 stored (assembled_type values)
                 <$> foldl (fun col '(r, v) => sparse.add_entry col r v) ∅
                           (zip ic (map int64_val vc)))
              indices values)).
Proof.
  intros Hne Hcols.
  set (block := fun (ic : list Z) (vc : list int64) =>
         sparse.mk (col_length, 1) (sparse.dtype_of vc)
           [foldl (fun col '(r, v) => sparse.add_entry col r v) ∅
                  (zip ic (map int64_val vc))]).
  assert (∀ ics vcs, forallb (fun b' => (sparse.shape b').1 =? col_length)
                             (zip_with block ics vcs) = true) as Hrows.
  { intros ics vcs. apply forallb_forall. intros b Hb%list_elem_of_In.
    apply elem_of_zip_with in Hb as (ic & vc & -> & _). apply Z.eqb_refl. }
  assert (foldr Z.add 0 (map (fun b' => (sparse.shape b').2)
                             (zip_with block indices values))
          = Z.of_nat (length indices)) as Hwidth.
  { clear Hne Hrows. induction Hcols as [|ic vc indices values _ _ IH];
      [done|]. cbn [zip_with map foldr length]. rewrite IH. simpl. lia. }
  assert (sparse.result_type (zip_with block indices values)
          = assembled_type values) as Htype.
  { unfold sparse.result_type, assembled_type.
    enough (forallb (fun b => bool_decide (sparse.element_type b = sparse.Int64))
                    (zip_with block indices values)
            = forallb (fun val_column : list int64 =>
                         match val_column with [] => false | _ => true end)
                      values) as -> by done.
    clear Hne Hrows Hwidth. induction Hcols as [|ic vc indices values _ _ IH];
      [done|]. cbn [zip_with forallb]. rewrite IH. f_equal.
    by destruct vc. }
  assert (∀ to,
    concat (map (fun b' => map (fmap (sparse.cast (sparse.element_type b') to))
                               (sparse.columns b'))
                (zip_with block indices values))
    = zip_with
        (fun ic vc =>
           stored to
           <$> foldl (fun col '(r, v) => sparse.add_entry col r v) ∅
                     (zip ic (map int64_val vc)))
        indices values) as Hcast.
  { intros to. clear Hne Hrows Hwidth Htype.
    induction Hcols as [|ic vc indices values Hlen _ IH]; [done|].
    cbn [zip_with map concat app]. rewrite IH. f_equal.
    destruct vc as [|v vc]; [|done].
    destruct ic; [|done]. simpl. by rewrite !fmap_empty. }
  destruct indices as [|ic indices]; [done|].
  destruct values as [|vc values]; [by apply Forall2_length in Hcols|].
  unfold sparse.hstack. cbn [zip_with].
  change (sparse.shape (block ic vc)).1 with col_length.
  rewrite Hrows.
  change (block ic vc :: zip_with block indices values)
    with (zip_with block (ic :: indices) (vc :: values)).
  by rewrite Hwidth, Htype, Hcast.
Qed.

(** The assembly of columns that are well formed. *)
Lemma ragged_array_columns (indices : list (list Z)) (values : list (list int64))
    (col_length : Z) :
  indices ≠ [] →
  0 ≤ col_length ≤ int64_max →
  Forall2 (fun ic vc => length ic = length vc
                        ∧ Forall (fun i => 0 ≤ i < col_length) ic)
          indices values →
  ragged_array_to_sparse_matrix indices values col_length
  = Ret (sparse.mk (col_length, Z.of_nat (length indices))
           (assembled_type values)
           (zip_with
              (fun ic vc =>
                 stored (assembled_type values)
                 <$> foldl (fun col '(r, v) => sparse.add_entry col r v) ∅
                           (zip ic (map int64_val vc)))
              indices values)).
Proof.
  intros Hne Hcl Hcols. unfold ragged_array_to_sparse_matrix.
  rewrite for_each_columns by done. cbn [obind].
  apply hstack_columns; [done|].
  eapply Forall2_impl; [exact Hcols|]. by intros ic vc [? _].
Qed.





(** A value of more than 53 bits beside a column without values: the
    matrix is of [float64], and holds 2^53 where 2^53 + 1 was given. *)
Example ragged_array_rounded_beside_empty_column :
  ragged_array_to_sparse_matrix [[0]; []] [[mk_int64 9007199254740993 I]; []] 1
  = Ret (sparse.mk (1, 2) sparse.Float64 [{[0 := 9007199254740992]}; ∅]).
Proof. reflexivity. Qed.

(** ** Worker budget *)

Lemma forallb_bool_decide {A} (P : A → Prop) `{∀ x, Decision (P x)} (l : list A) :
  forallb (fun x => bool_decide (P x)) l = true ↔ Forall P l.
Proof.
  rewrite forallb_forall, Forall_forall. split; intros Hl x Hx.
  - apply list_elem_of_In in Hx. apply (bool_decide_unpack _).
    by rewrite (Hl x Hx).
  - apply list_elem_of_In in Hx. apply bool_decide_eq_true_2. by apply Hl.
Qed.

(** C7, as the code has it. A request of -1 stands for all the cores the
    host can spare; any other request must not be below -1.  The effective
    worker count is the minimum of the request so read, the logical core
    count minus one, and the number of datasets selected, hence exceeds
    neither of the two bounds.  When the effective count is positive, the
    construction goes through with that count, and it appends the advisory
    to the log exactly when the count does not divide the number of
    datasets. *)
Theorem worker_budget (base : LISA_Core.t) (cpu_count cores : Z)
    (assays : list string) :
  -1 ≤ cores →
  init_preconditions base assays →
  let n := lisa_params_num_datasets_selected (LISA_Core._config base) in
  let requested := if cores =? -1 then cpu_count - 1 else cores in
  let effective := Z.min (Z.min requested (cpu_count - 1)) n in
  LISA._set_cores cpu_count n cores = Ret effective
  ∧ effective ≤ n
  ∧ effective ≤ cpu_count - 1
  ∧ (0 < effective →
     ∃ self,
       LISA.__init__ base cpu_count cores assays = Ret self
       ∧ LISA.cores self = effective
       ∧ LISA_Core.log (LISA.core self) =
           if n mod effective =? 0 then LISA_Core.log base
           else Log.append (LISA_Core.log base) (LISA.cores_warning effective n)).
Proof.
  intros Hcores (Hne & Hassays & Hn & Hanova & Hbasic) n requested effective.
  assert (LISA._set_cores cpu_count n cores = Ret effective) as Hset.
  { unfold LISA._set_cores. rewrite (proj2 (Z.leb_le _ _)) by done. simpl.
    subst effective requested. do 3 f_equal.
    destruct (cores =? -1) eqn:E1, (cores <=? -1) eqn:E2; try done; lia. }
  split; [done|]. split; [lia|]. split; [lia|].
  intros Hpos. unfold LISA.__init__.
  destruct assays as [|a assays]; [done|].
  replace (0 <? Z.of_nat (length (a :: assays))) with true
    by (symmetry; apply Z.ltb_lt; simpl; lia).
  rewrite (proj2 (forallb_bool_decide _ _)) by done.
  fold n. rewrite Hset. cbn [negb obind].
  rewrite (proj2 (Z.ltb_lt n _)) by (subst n; lia).
  rewrite (proj2 (Z.ltb_lt 0 _)) by lia.
  rewrite (proj2 (Z.ltb_lt 0 n)) by (subst n; lia).
  rewrite (proj2 (Z.ltb_lt _ 500)) by lia.
  rewrite (proj2 (Z.ltb_lt n 25)) by (subst n; lia).
  cbn [negb andb]. unfold LISA.py_mod.
  rewrite (proj2 (Z.eqb_neq effective 0)) by lia. cbn [obind].
  rewrite bool_decide_eq_true_2 by done. cbn [negb].
  eexists. split; [reflexivity|]. split; [reflexivity|]. simpl.
  by destruct (n mod effective =? 0).
Qed.

(** The scenario of the specification: 7 workers requested, 4 logical
    cores, 10 datasets. *)
Lemma worker_budget_witness :
  LISA._set_cores 4 10 7 = Ret 3
  ∧ ∃ self,
      LISA.__init__ example_base 4 7 ["Direct"; "DNase"] = Ret self
      ∧ LISA.cores self = 3
      ∧ LISA_Core.log (LISA.core self) =
          Log.append (LISA_Core.log example_base) (LISA.cores_warning 3 10).
Proof.
  assert (init_preconditions example_base ["Direct"; "DNase"]) as Hpre.
  { split; [discriminate|].
    split; [repeat constructor; apply (bool_decide_unpack _); vm_compute; exact I|].
    split; [simpl; lia|]. split; [simpl; lia|].
    apply (bool_decide_unpack _); vm_compute; exact I. }
  destruct (worker_budget example_base 4 7 ["Direct"; "DNase"]) as (Hset & _ & _ & Hinit);
    [lia|exact Hpre|].
  split; [exact Hset|]. apply Hinit. reflexivity.
Defined.

(** C7, counterexample: a request of -1 on a host with 4 logical cores and
    10 datasets gives 3 workers, which is not the minimum of -1, 3 and
    10. *)
Lemma set_cores_all_available :
  LISA._set_cores 4 10 (-1) = Ret 3
  ∧ Z.min (Z.min (-1) (4 - 1)) 10 = -1.
Proof. split; reflexivity. Qed.

(** On a host with one logical core the effective count is 0 and the test
    for uneven division divides by it. *)
Example init_single_core :
  LISA._set_cores 1 10 1 = Ret 0
  ∧ LISA.__init__ example_base 1 1 ["Direct"] = Raise ZeroDivisionError.
Proof. split; reflexivity. Qed.

(** ** Assay kinds *)

(** C6, as the code has it. When a requested assay kind is not among the
    configured ones, the constructor fails with [AssertionError] (the
    failure the specification calls [InvalidAssayError]) and no object
    comes to exist on which an assay could be registered or run.  The
    message is one fixed text, whatever the offending value. *)
Theorem invalid_assay_rejected (base : LISA_Core.t) (cpu_count cores : Z)
    (assays : list string) (assay : string) :
  assay ∈ assays →
  assay ∉ lisa_params_assays (LISA_Core._config base) →
  LISA.__init__ base cpu_count cores assays
  = Raise (AssertionError LISA.invalid_assay_message).
Proof.
  intros Hin Hnot. unfold LISA.__init__.
  destruct assays as [|a assays]; [by apply elem_of_nil in Hin|].
  replace (0 <? Z.of_nat (length (a :: assays))) with true
    by (symmetry; apply Z.ltb_lt; simpl; lia).
  cbn [negb].
  destruct (forallb _ (a :: assays)) eqn:Hall; [|done].
  apply forallb_bool_decide in Hall. rewrite Forall_forall in Hall.
  destruct (Hnot (Hall assay Hin)).
Qed.

Lemma invalid_assay_rejected_witness :
  LISA.__init__ example_base 4 1 ["Direct"; "Unknown"]
  = Raise (AssertionError LISA.invalid_assay_message).
Proof.
  apply (invalid_assay_rejected example_base 4 1 ["Direct"; "Unknown"] "Unknown");
    apply (bool_decide_unpack _); vm_compute; exact I.
Defined.

(** C6, counterexample: the scenario of the specification.  The message of
    the failure does not contain the offending value "Unknown". *)
Lemma invalid_assay_not_named :
  ∃ msg,
    LISA.__init__ example_base 4 1 ["Direct"; "Unknown"] = Raise (AssertionError msg)
    ∧ String.index 0 "Unknown" msg = None.
Proof. eexists. split; reflexivity. Qed.

(** The scheduler's own check, reached only for a kind the configuration
    admits: it registers the assays scheduled before that kind, runs none,
    and names the kind. *)
Lemma add_assays_invalid (self : LISA.t) (mask : list bool)
    (before after : list string) (assay : string) :
  Forall dispatched before → ¬ dispatched assay →
  ∃ self',
    LISA.add_assays self mask (before ++ assay :: after)
    = (self', Raise (AssertionError ("Invalid assay encountered: " +:+ assay)))
    ∧ length (LISA_Core.assays (LISA.core self'))
      = (length (LISA_Core.assays (LISA.core self)) + length before)%nat.
Proof.
  intros Hbefore Hassay. revert self.
  induction Hbefore as [|a before Ha _ IH]; intros self; simpl.
  - destruct (String.eqb_spec assay "Direct") as [->|_];
      [destruct Hassay; by left|].
    destruct (String.eqb_spec assay "DNase") as [->|_];
      [destruct Hassay; right; by left|].
    destruct (String.eqb_spec assay "H3K27ac") as [->|_];
      [destruct Hassay; right; by right|].
    simpl. eexists. split; [done|lia].
  - destruct Ha as [->|[->| ->]]; simpl;
      match goal with
      | |- context [LISA.add_assays ?s _ _] => destruct (IH s) as (self' & -> & Hlen)
      end;
      exists self'; (split; [done|]); rewrite Hlen; simpl;
      rewrite length_app; simpl; lia.
Qed.

(** ** Loading the RP map *)

(** C2, what the code does. With the artifact absent locally and the
    download raising, the handler is never entered: naming the exception
    class to compare with fails, because [error] is not bound in the
    module.  The caller receives [NameError]; nothing is logged and no
    default map is tried. *)
Theorem load_rp_map_fetch_failure (self : LISA.t) (fs fs' : files)
    (name : string) (err : exn) :
  let base := LISA.core self in
  let cfg := LISA_Core._config base in
  let path :=
    paths_rp_map cfg (LISA_Core.PACKAGE_PATH base) (LISA_Core.species base)
                 (LISA_Core.REQURED_DATASET_VERSION base) name in
  LISA.rp_map self = LISA.RPName name →
  fs !! path = None →
  LISA_Core.fetch_from_cistrome base
    (downloads_rp_maps cfg (LISA_Core.species base)
                       (LISA_Core.REQURED_DATASET_VERSION base) name)
    path fs = (fs', Raise err) →
  LISA._load_rp_map self fs
  = (self, fs', Raise (NameError "name 'error' is not defined")).
Proof.
  intros base cfg path Hname Habsent Hfetch. unfold LISA._load_rp_map.
  rewrite Hname. fold base. fold cfg. fold path.
  rewrite Habsent.
  rewrite bool_decide_eq_false_2 by (by intros [? ?]). cbn [negb].
  rewrite Hfetch. reflexivity.
Qed.

Example example_lisa_constructed :
  LISA.__init__ example_base 11 10 ["Direct"; "DNase"; "Direct"] = Ret example_lisa.
Proof. reflexivity. Qed.

Lemma load_rp_map_fetch_failure_witness :
  LISA._load_rp_map example_lisa ∅
  = (example_lisa, ∅, Raise (NameError "name 'error' is not defined")).
Proof.
  apply (load_rp_map_fetch_failure example_lisa ∅ ∅ "basic" URLError);
    reflexivity.
Defined.

(** ** Alignment of factor genes *)

Lemma match_user_provided_genes_NoDup all_genes names selected :
  NoDup (get_locations selected) →
  NoDup (get_locations (match_user_provided_genes all_genes names selected)).
Proof.
  revert selected; induction names as [|name names IH]; intros selected Hnd;
    simpl; [done|].
  destruct (all_genes name) as [g|]; [|by apply IH].
  case_bool_decide as Hin; apply IH; [done|].
  unfold get_locations in *. rewrite map_app. simpl.
  apply NoDup_app. split; [done|]. split; [|apply NoDup_singleton].
  intros loc Hloc ->%list_elem_of_singleton. done.
Qed.

(** Names without a gene in the catalogue leave no trace in the match. *)
Lemma match_user_provided_genes_unmatched all_genes names selected :
  match_user_provided_genes all_genes names selected
  = match_user_provided_genes all_genes
      (filter (fun name => is_Some (all_genes name)) names) selected.
Proof.
  revert selected; induction names as [|name names IH]; intros selected;
    [done|].
  rewrite filter_cons. destruct (decide (is_Some (all_genes name))) as [[g Hg]|Hno].
  - simpl. rewrite Hg. case_bool_decide; apply IH.
  - simpl. destruct (all_genes name) as [g|]; [destruct Hno; by eexists|].
    apply IH.
Qed.

Lemma masked_isin (locs chosen : list string) :
  LISA.masked locs (LISA.np_isin locs chosen) = filter (fun loc => loc ∈ chosen) locs.
Proof.
  induction locs as [|loc locs IH]; [done|]. simpl.
  rewrite filter_cons, IH. by case_bool_decide; destruct (decide _).
Qed.

Lemma dict_getitem_gene (genes : list gene) (loc : string) :
  loc ∈ get_locations genes →
  ∃ g, g ∈ genes ∧ location g = loc
       ∧ LISA.dict_getitem (zip (get_locations genes) (get_symbols genes)) loc
         = Ret (symbol g).
Proof.
  induction genes as [|g genes IH]; simpl; [by intros ?%elem_of_nil|].
  intros Hin. destruct (String.eqb_spec (location g) loc) as [Heq|Hne].
  - exists g. split; [left|done].
  - apply elem_of_cons in Hin as [->|Hin]; [done|].
    destruct (IH Hin) as (g' & Hg' & Hloc & Hget).
    exists g'. split; [by right|done].
Qed.

Lemma for_each_symbols (genes : list gene) (locs : list string) :
  Forall (fun loc => loc ∈ get_locations genes) locs →
  ∃ keys,
    for_each (fun gene_loc =>
                LISA.dict_getitem (zip (get_locations genes) (get_symbols genes))
                                  gene_loc) locs
    = Ret keys
    ∧ Forall2 (fun loc key => ∃ g, g ∈ genes ∧ location g = loc ∧ symbol g = key)
              locs keys.
Proof.
  induction 1 as [|loc locs Hloc _ (keys & IH & Hkeys)]; simpl.
  - exists []. by split.
  - destruct (dict_getitem_gene genes loc Hloc) as (g & Hg & Hgl & ->). simpl.
    rewrite IH. simpl. exists (symbol g :: keys). split; [done|].
    constructor; [|done]. by exists g.
Qed.

Lemma true_positions_isin (locs chosen : list string) :
  length (filter (fun b => b = true) (LISA.np_isin locs chosen))
  = length (filter (fun loc => loc ∈ chosen) locs).
Proof.
  induction locs as [|loc locs IH]; [done|]. simpl.
  rewrite !filter_cons. case_bool_decide as Hin.
  - rewrite decide_True by done. rewrite decide_True by done. simpl. by rewrite IH.
  - rewrite decide_False by done. rewrite decide_False by done. done.
Qed.

(** What [_get_factor_gene_mask] returns and leaves in the object. *)
Lemma get_factor_gene_mask_returns (self : LISA.t) :
  let base := LISA.core self in
  let locs := LISA_Core.rp_map_locs base in
  let matched :=
    match_user_provided_genes (LISA_Core.all_genes base)
                              (LISA_Core.factor_metadata_factor base) [] in
  let mask := LISA.np_isin locs (get_locations matched) in
  ∃ keys,
    LISA._get_factor_gene_mask self
    = (LISA.set_factor_mask_keys (LISA.set_factor_gene_mask self mask) keys,
       Ret (mask, keys))
    ∧ Forall2 (fun loc key => ∃ g, g ∈ matched ∧ location g = loc ∧ symbol g = key)
              (filter (fun loc => loc ∈ get_locations matched) locs) keys.
Proof.
  intros base locs matched mask.
  destruct (for_each_symbols matched
              (filter (fun loc => loc ∈ get_locations matched) locs))
    as (keys & Hkeys & Hsymbols).
  { apply Forall_forall. by intros loc [? _]%list_elem_of_filter. }
  exists keys. split; [|done].
  unfold LISA._get_factor_gene_mask. fold base. fold locs. fold matched. fold mask.
  rewrite py_dict_NoDup.
  - unfold mask. by rewrite masked_isin, Hkeys.
  - unfold dict_keys. rewrite fst_zip.
    + apply match_user_provided_genes_NoDup. constructor.
    + unfold get_locations, get_symbols. by rewrite !length_map.
Qed.

(** The scheduler's check inside [_initialize_assays]: whether or not the
    mask has been computed before, the first scheduled kind that is not
    dispatched on ends the call with an [AssertionError] that names it. *)
Lemma initialize_assays_invalid (self : LISA.t)
    (before after : list string) (assay : string) :
  LISA.schedule_assays self = before ++ assay :: after →
  Forall dispatched before → ¬ dispatched assay →
  ∃ self',
    LISA._initialize_assays self
    = (self', Raise (AssertionError ("Invalid assay encountered: " +:+ assay))).
Proof.
  intros Hsched Hbefore Hassay. unfold LISA._initialize_assays.
  destruct (LISA.factor_gene_mask self) as [mask|].
  - rewrite Hsched.
    destruct (add_assays_invalid self mask before after assay Hbefore Hassay)
      as (self' & -> & _). by exists self'.
  - destruct (get_factor_gene_mask_returns self) as (keys & -> & _).
    cbn [LISA.schedule_assays LISA.set_factor_mask_keys LISA.set_factor_gene_mask].
    rewrite Hsched.
    match goal with
    | |- context [LISA.add_assays ?s ?m _] =>
        destruct (add_assays_invalid s m before after assay Hbefore Hassay)
          as (self' & -> & _)
    end.
    by exists self'.
Qed.

(** C5. With [matched] the genes the catalogue matches to the factor
    names, [_get_factor_gene_mask] returns, whatever the names: the mask is
    true at row i exactly when the location of row i is one of the matched
    locations; the keys are the display symbols of the selected rows, one
    per true position of the mask and in row order, each taken from the
    matched gene at that location; and the names that match no gene change
    nothing: the match is the match of the other names. *)
Theorem factor_gene_mask_aligned (self : LISA.t) :
  let base := LISA.core self in
  let names := LISA_Core.factor_metadata_factor base in
  let locs := LISA_Core.rp_map_locs base in
  let matched := match_user_provided_genes (LISA_Core.all_genes base) names [] in
  ∃ mask keys,
    LISA._get_factor_gene_mask self
    = (LISA.set_factor_mask_keys (LISA.set_factor_gene_mask self mask) keys,
       Ret (mask, keys))
    ∧ length mask = length locs
    ∧ (∀ i loc, locs !! i = Some loc →
         mask !! i = Some true ↔ loc ∈ get_locations matched)
    ∧ length keys = length (filter (fun b => b = true) mask)
    ∧ Forall2 (fun loc key => ∃ g, g ∈ matched ∧ location g = loc ∧ symbol g = key)
              (filter (fun loc => loc ∈ get_locations matched) locs) keys
    ∧ matched = match_user_provided_genes (LISA_Core.all_genes base)
                  (filter (fun name => is_Some (LISA_Core.all_genes base name)) names)
                  [].
Proof.
  intros base names locs matched.
  destruct (get_factor_gene_mask_returns self) as (keys & Hret & Hsymbols).
  exists (LISA.np_isin locs (get_locations matched)), keys.
  split; [exact Hret|]. split; [|split; [|split; [|split]]].
  - unfold LISA.np_isin. by rewrite length_map.
  - intros i loc Hloc. unfold LISA.np_isin.
    rewrite list_lookup_fmap, Hloc. simpl.
    split.
    + intros [= H]. by apply bool_decide_eq_true_1 in H.
    + intros H. by rewrite bool_decide_eq_true_2.
  - rewrite true_positions_isin. symmetry. by eapply Forall2_length.
  - exact Hsymbols.
  - apply match_user_provided_genes_unmatched.
Qed.

(** Rows 1 and 3 carry factor genes; "NOSUCH" matches nothing, and "PU.1"
    and "SPI1" are one gene, shown under its canonical symbol. *)
Example factor_gene_mask_example :
  (LISA._get_factor_gene_mask example_lisa).2
  = Ret ([false; true; false; true], ["SPI1"; "GATA1"]).
Proof. reflexivity. Qed.

(** * Further properties *)

(** ** Construction of a table *)

Lemma zip_cons_lookup {A} (c : list A) (T : list (list A)) (i : nat) x t :
  c !! i = Some x → T !! i = Some t → zip_cons c T !! i = Some (x :: t).
Proof.
  revert T i; induction c as [|y c IH]; intros [|t' T] [|i]; simpl; try done.
  - by intros [= ->] [= ->].
  - apply IH.
Qed.

Lemma foldr_min_swap {A} (T : list (list A)) (n m : nat) :
  Nat.min n (foldr (fun l k => Nat.min (length l) k) m T)
  = Nat.min m (foldr (fun l k => Nat.min (length l) k) n T).
Proof.
  induction T as [|c T IH]; simpl; [lia|].
  pose proof IH. lia.
Qed.

Lemma shortest_cons {A} (c c' : list A) (T : list (list A)) :
  shortest (c :: c' :: T) = Nat.min (length c) (shortest (c' :: T)).
Proof. unfold shortest. simpl. pose proof (foldr_min_swap T (length c) (length c')). lia. Qed.

Lemma shortest_le {A} (T : list (list A)) :
  Forall (fun c => (shortest T ≤ length c)%nat) T.
Proof.
  induction T as [|c T IH]; [constructor|].
  destruct T as [|c' T]; [by repeat constructor|].
  rewrite shortest_cons. constructor; [lia|].
  eapply Forall_impl; [exact IH|]. intros l Hl. cbv beta in *. lia.
Qed.

Lemma transpose_length_shortest {A} (T : list (list A)) :
  length (_transpose_table T) = shortest T.
Proof.
  induction T as [|c T IH]; [done|].
  destruct T as [|c' T].
  - simpl. by rewrite length_map.
  - change (_transpose_table (c :: c' :: T))
      with (zip_cons c (_transpose_table (c' :: T))).
    by rewrite zip_cons_length, IH, shortest_cons.
Qed.

(** Line [i] of the transposed table holds item [i] of every line. *)
Lemma transpose_lookup {A} (T : list (list A)) (i : nat) :
  T ≠ [] → Forall (fun c => (i < length c)%nat) T →
  ∃ row, _transpose_table T !! i = Some row
         ∧ Forall2 (fun c x => c !! i = Some x) T row.
Proof.
  induction T as [|c T IH]; [done|intros _ Hall].
  apply Forall_cons in Hall as [Hc Hall].
  destruct (lookup_lt_is_Some_2 c i Hc) as [x Hx].
  destruct T as [|c' T].
  - exists [x]. split; [|by repeat constructor].
    simpl. by rewrite list_lookup_fmap, Hx.
  - destruct IH as (row & Hrow & Hcells); [done|done|].
    exists (x :: row). split; [|by constructor].
    change (_transpose_table (c :: c' :: T))
      with (zip_cons c (_transpose_table (c' :: T))).
    by apply zip_cons_lookup.
Qed.

(** X1. The constructor turns columns into rows: the table has as many
    rows as the shortest column has values, and row [i] holds value [i] of
    every column, in the order of the columns; what a longer column has
    beyond that is dropped. *)
Theorem constructor_rows (keys : list string) (columns : list (list pyval)) :
  let t := LISA_Results__init__ keys columns in
  len t = shortest columns
  ∧ ∀ i, (i < shortest columns)%nat →
      ∃ row, results_rows t !! i = Some row
             ∧ Forall2 (fun column value => column !! i = Some value) columns row.
Proof.
  simpl. unfold len. simpl. split; [apply transpose_length_shortest|].
  intros i Hi. destruct columns as [|c columns]; [simpl in Hi; lia|].
  apply transpose_lookup; [done|].
  eapply Forall_impl; [apply shortest_le|]. intros l Hl. cbv beta in *. lia.
Qed.

Lemma constructor_rows_witness :
  len (LISA_Results__init__ ["gene"; "score"]
         [[PStr "SPI1"; PStr "MYC"; PStr "JUN"]; [PInt 1; PInt 2]]) = 2%nat.
Proof.
  exact (proj1 (constructor_rows ["gene"; "score"]
                  [[PStr "SPI1"; PStr "MYC"; PStr "JUN"]; [PInt 1; PInt 2]])).
Defined.

(** ** Looking up a column *)

Lemma index_of_first name hs i :
  index_of name hs = Some i → ∀ j, (j < i)%nat → hs !! j ≠ Some name.
Proof.
  revert i; induction hs as [|h hs IH]; simpl; intros i; [done|].
  destruct (String.eqb_spec h name) as [->|Hne]; [intros [= <-] j Hj; lia|].
  destruct (index_of name hs) as [q|]; simpl; [|done].
  intros [= <-] [|j] Hj; simpl; [congruence|]. apply (IH q); [done|lia].
Qed.

Lemma np_str_nuls n : np_str (nuls n) = EmptyString.
Proof. induction n as [|n IH]; simpl; [done|]. by rewrite IH. Qed.

Lemma np_str_app_nuls s n : np_str (s +:+ nuls n) = np_str s.
Proof.
  induction s as [|c s IH]; simpl; [apply np_str_nuls|]. by rewrite IH.
Qed.

Lemma np_str_padded s : ∃ n, s = np_str s +:+ nuls n.
Proof.
  induction s as [|c s [n IH]]; [by exists 0%nat|]. simpl.
  destruct (np_str s) as [|d kept] eqn:E.
  - change (s = nuls n) in IH. subst s.
    destruct (Ascii.eqb_spec c Ascii.zero) as [->|_];
      [by exists (S n)|by exists n].
  - exists n. change (String c s = String c (String d kept +:+ nuls n)).
    by rewrite <- IH.
Qed.

Lemma nuls_add n m : nuls n +:+ nuls m = nuls (n + m).
Proof.
  induction n as [|n IH]; [done|].
  change (String Ascii.zero (nuls n +:+ nuls m) = String Ascii.zero (nuls (n + m))).
  by rewrite IH.
Qed.

Lemma string_app_assoc (a b c : string) : (a +:+ b) +:+ c = a +:+ (b +:+ c).
Proof.
  induction a as [|x a IH]; [done|].
  change (String x ((a +:+ b) +:+ c) = String x (a +:+ (b +:+ c))).
  by rewrite IH.
Qed.

(** numpy finds two strings equal when they differ at most in the NUL
    characters they end with. *)
Lemma np_str_same_name a b : np_str a = np_str b ↔ same_name a b.
Proof.
  split.
  - intros Heq. destruct (np_str_padded a) as [ka Ha].
    destruct (np_str_padded b) as [kb Hb].
    exists kb, ka. rewrite Ha at 1. rewrite Hb at 1.
    rewrite !string_app_assoc, !nuls_add, Heq. do 2 f_equal. lia.
  - intros (n & m & Heq). apply (f_equal np_str) in Heq.
    by rewrite !np_str_app_nuls in Heq.
Qed.

(** X2. [get_colnum] returns the position of the first header that is the
    name up to the NUL characters either of them ends with, and raises
    [IndexError] exactly when no header is: numpy compares strings without
    the NUL characters at their end. *)
Theorem get_colnum_first (self : LISA_Results) (colname : string) :
  (∀ i, get_colnum self colname = Ret i →
     (∃ h, results_headers self !! i = Some h ∧ same_name h colname)
     ∧ (∀ j h, (j < i)%nat → results_headers self !! j = Some h →
               ¬ same_name h colname))
  ∧ (∀ e, get_colnum self colname = Raise e →
       Forall (fun h => ¬ same_name h colname) (results_headers self)
       ∧ e = IndexError ("Column " +:+ colname +:+ " not in results table"))
  ∧ (∀ h, h ∈ results_headers self → same_name h colname →
          ∃ i, get_colnum self colname = Ret i).
Proof.
  unfold get_colnum.
  destruct (index_of (np_str colname) (map np_str (results_headers self)))
    as [i|] eqn:E.
  - split; [|split]; [|done|by eexists].
    intros ? [= <-]. split.
    + apply index_of_Some in E. rewrite list_lookup_fmap in E.
      destruct (results_headers self !! i) as [h|]; [|done].
      injection E as E. exists h. split; [done|]. by apply np_str_same_name.
    + intros j h Hj Hh Hsame. apply (index_of_first _ _ _ E j Hj).
      rewrite list_lookup_fmap, Hh. simpl. f_equal. by apply np_str_same_name.
  - apply index_of_None in E. split; [done|]. split.
    + intros ? [= <-]. split; [|done]. apply Forall_forall.
      intros h Hh Hsame. apply E. apply list_elem_of_fmap.
      exists h. split; [|done]. symmetry. by apply np_str_same_name.
    + intros h Hh Hsame. exfalso. apply E. apply list_elem_of_fmap.
      exists h. split; [|done]. symmetry. by apply np_str_same_name.
Qed.

(** Of two headers that differ in a NUL character at the end, the first
    is found for either name. *)
Example get_colnum_trailing_nul :
  get_colnum (mkResults ["gene" +:+ nuls 1; "gene"] []) "gene" = Ret 0%nat
  ∧ get_colnum (mkResults ["gene"; "gene" +:+ nuls 1] []) ("gene" +:+ nuls 1)
    = Ret 0%nat.
Proof. split; reflexivity. Qed.

(** ** [subset] and [filter_rows] *)

Lemma py_getitem_elem {A} (l : list A) (i : Z) x :
  py_getitem l i = Ret x → x ∈ l.
Proof.
  unfold py_getitem. destruct (norm_index _ i) as [k|]; [|done].
  destruct (l !! k) as [y|] eqn:E; [|done].
  intros [= <-]. by eapply list_elem_of_lookup_2.
Qed.

Lemma py_getitem_out_of_range {A} (l : list A) (i : Z) :
  ¬ (- Z.of_nat (length l) ≤ i < Z.of_nat (length l)) →
  py_getitem l i = Raise (IndexError "list index out of range").
Proof.
  intros Hout. unfold py_getitem, norm_index.
  destruct (0 <=? i) eqn:H0, (i <? Z.of_nat (length l)) eqn:H1; simpl;
    try (exfalso; lia);
    destruct (- Z.of_nat (length l) <=? i) eqn:H2, (i <? 0) eqn:H3; simpl;
    try done; exfalso; lia.
Qed.

Lemma py_getitem_raises {A} (l : list A) (i : Z) e :
  py_getitem l i = Raise e → e = IndexError "list index out of range".
Proof.
  unfold py_getitem. destruct (norm_index _ i) as [k|]; [|by intros [= <-]].
  destruct (l !! k); [done|by intros [= <-]].
Qed.

Lemma select_rows_picks table idx picks :
  Forall2 (fun i row => py_getitem table i = Ret row) idx picks →
  select_rows table idx = Ret picks.
Proof.
  induction 1 as [|i row idx picks Hi _ IH]; simpl; [done|].
  by rewrite Hi, IH.
Qed.

(** X3. On a table with one value per header and at least one header,
    [subset] returns the table of the rows at the given indices, in the
    order of the indices, a row as often as its index is given, an index
    below 0 counting from the last row; the headers are kept. *)
Theorem subset_selects (self : LISA_Results) (idx : list Z)
    (picks : list (list pyval)) :
  Forall (fun row => length row = length (results_headers self)) (results_rows self) →
  results_headers self ≠ [] →
  Forall2 (fun i row => py_getitem (results_rows self) i = Ret row) idx picks →
  subset self idx = Ret (mkResults (results_headers self) picks).
Proof.
  intros Hrows Hhdr Hpicks. unfold subset.
  rewrite (select_rows_picks _ _ _ Hpicks). simpl.
  unfold LISA_Results__init__.
  rewrite (transpose_involutive _ (length (results_headers self))); [done| |].
  - destruct (results_headers self); [done|simpl; lia].
  - rewrite Forall_forall in Hrows. apply Forall_forall. intros row Hrow.
    apply Hrows. clear -Hpicks Hrow.
    induction Hpicks as [|i r idx picks Hi _ IH]; [by apply elem_of_nil in Hrow|].
    apply elem_of_cons in Hrow as [->|Hrow]; [by eapply py_getitem_elem|by apply IH].
Qed.

Lemma subset_selects_witness :
  subset (mkResults ["gene"; "score"]
            [[PStr "SPI1"; PInt 3]; [PStr "MYC"; PInt 1]; [PStr "JUN"; PInt 2]])
         [2; -3; 2]
  = Ret (mkResults ["gene"; "score"]
           [[PStr "JUN"; PInt 2]; [PStr "SPI1"; PInt 3]; [PStr "JUN"; PInt 2]]).
Proof.
  apply (subset_selects
           (mkResults ["gene"; "score"]
              [[PStr "SPI1"; PInt 3]; [PStr "MYC"; PInt 1]; [PStr "JUN"; PInt 2]])).
  - repeat constructor.
  - discriminate.
  - repeat constructor.
Defined.

(** X4. An index outside [[-M, M)] among those given to [subset] of a
    table of M rows ends the call with [IndexError]. *)
Theorem subset_out_of_range (self : LISA_Results) (idx : list Z) (i : Z) :
  i ∈ idx →
  ¬ (- Z.of_nat (len self) ≤ i < Z.of_nat (len self)) →
  subset self idx = Raise (IndexError "list index out of range").
Proof.
  intros Hin Hout. unfold subset, len in *.
  assert (select_rows (results_rows self) idx
          = Raise (IndexError "list index out of range")) as ->; [|done].
  induction idx as [|j idx IH]; [by apply elem_of_nil in Hin|]. simpl.
  destruct (py_getitem (results_rows self) j) as [row|e] eqn:Hj; simpl.
  - apply elem_of_cons in Hin as [->|Hin].
    + by rewrite py_getitem_out_of_range in Hj.
    + by rewrite IH.
  - by rewrite (py_getitem_raises _ _ _ Hj).
Qed.

Lemma subset_out_of_range_witness :
  subset (mkResults ["gene"] [[PStr "SPI1"]; [PStr "MYC"]]) [0; -3]
  = Raise (IndexError "list index out of range").
Proof.
  apply (subset_out_of_range _ _ (-3)).
  - apply (bool_decide_unpack _). vm_compute. exact I.
  - unfold len. simpl. lia.
Defined.

Lemma filter_rownums_select (p : pyval → bool) (c : nat)
    (rows pre : list (list pyval)) :
  Forall (fun row => is_Some (row !! c)) rows →
  ∃ idx,
    filter_rownums (fun v => Ret (p v)) c rows (Z.of_nat (length pre)) = Ret idx
    ∧ select_rows (pre ++ rows) idx
      = Ret (filter (fun row => from_option p false (row !! c) = true) rows).
Proof.
  intros Hall; revert pre.
  induction Hall as [|row rows [v Hv] _ IH]; intros pre; simpl.
  - by exists [].
  - rewrite (py_getitem_nat _ _ _ Hv). simpl.
    destruct (IH (pre ++ [row])) as (idx & Hidx & Hsel).
    rewrite length_app in Hidx. simpl in Hidx.
    replace (Z.of_nat (length pre) + 1) with (Z.of_nat (length pre + 1)) by lia.
    rewrite Hidx. simpl. rewrite <- app_assoc in Hsel. simpl in Hsel.
    rewrite filter_cons, Hv. simpl.
    destruct (p v) eqn:Hp.
    + exists (Z.of_nat (length pre) :: idx). split; [done|].
      rewrite decide_True by done. simpl.
      rewrite (py_getitem_nat _ _ row) by (by rewrite list_lookup_middle).
      simpl. by rewrite Hsel.
    + exists idx. split; [done|]. by rewrite decide_False by done.
Qed.

Lemma filter_rownums_ext (f g : pyval → outcome bool) c rows n :
  (∀ v, f v = g v) → filter_rownums f c rows n = filter_rownums g c rows n.
Proof.
  intros Hfg. revert n; induction rows as [|row rows IH]; intros n; simpl; [done|].
  destruct (py_getitem row (Z.of_nat c)); simpl; [|done].
  by rewrite Hfg, IH.
Qed.

(** X5. On a table with one value per header, and for a test that answers
    for every cell, [filter_rows] returns the table of the rows whose cell
    in the column [get_colnum] finds for the name passes the test, in
    their order and with the headers kept. *)
Theorem filter_rows_keeps (self : LISA_Results) (filter_func : pyval → outcome bool)
    (p : pyval → bool) (colname : string) (c : nat) :
  Forall (fun row => length row = length (results_headers self)) (results_rows self) →
  get_colnum self colname = Ret c →
  (∀ v, filter_func v = Ret (p v)) →
  filter_rows self filter_func colname
  = Ret (mkResults (results_headers self)
           (filter (fun row => from_option p false (row !! c) = true)
                   (results_rows self))).
Proof.
  intros Hrows Hc Hf. unfold filter_rows. rewrite Hc. simpl.
  pose proof (get_colnum_lt _ _ _ Hc) as Hhdr.
  destruct (filter_rownums_select p c (results_rows self) []) as (idx & Hidx & Hsel).
  { eapply Forall_impl; [exact Hrows|]. intros row Hrow.
    apply lookup_lt_is_Some_2. by rewrite Hrow. }
  simpl in Hsel.
  rewrite (filter_rownums_ext filter_func (fun v => Ret (p v))) by done.
  change 0 with (Z.of_nat (length (@nil (list pyval)))). rewrite Hidx.
  simpl. unfold subset. rewrite Hsel. simpl. unfold LISA_Results__init__.
  rewrite (transpose_involutive _ (length (results_headers self))); [done| |].
  - lia.
  - rewrite Forall_forall in Hrows. apply Forall_forall.
    intros row [_ Hrow]%list_elem_of_filter. by apply Hrows.
Qed.

Lemma filter_rows_keeps_witness :
  filter_rows (mkResults ["gene"; "score"]
                 [[PStr "SPI1"; PInt 3]; [PStr "MYC"; PInt 1]; [PStr "JUN"; PInt 2]])
              (fun v => Ret (match v with PInt z => 2 <=? z | PStr _ => false end))
              "score"
  = Ret (mkResults ["gene"; "score"] [[PStr "SPI1"; PInt 3]; [PStr "JUN"; PInt 2]]).
Proof.
  apply (filter_rows_keeps
           (mkResults ["gene"; "score"]
              [[PStr "SPI1"; PInt 3]; [PStr "MYC"; PInt 1]; [PStr "JUN"; PInt 2]])
           _ (fun v => match v with PInt z => 2 <=? z | PStr _ => false end)
           "score" 1).
  - repeat constructor.
  - reflexivity.
  - reflexivity.
Defined.

(** ** Adding and updating columns *)

Lemma put_cells_lookup put rows data (i : nat) row :
  rows !! i = Some row →
  put_cells put rows data !! i
  = Some (match data !! i with Some value => put row value | None => row end).
Proof.
  revert data i; induction rows as [|r rows IH]; intros data i; [done|].
  destruct data as [|value data]; simpl.
  - intros ->. by destruct i.
  - destruct i as [|i]; simpl; [by intros [= ->]|]. apply IH.
Qed.

Lemma put_cells_length put rows data :
  length (put_cells put rows data) = length rows.
Proof.
  revert data; induction rows as [|r rows IH]; intros [|value data]; simpl;
    try done. by rewrite IH.
Qed.








(** X7. A column can be added once: after [add_column] has returned
    normally, a second [add_column] of the same name, with whatever values
    and position, raises [AssertionError] and leaves the table as the first
    call left it. *)
Theorem add_column_twice (self self1 : LISA_Results) (name : string)
    (data data' : list pyval) (column_num column_num' : Z) :
  add_column name data column_num self = (self1, Ret tt) →
  add_column name data' column_num' self1
  = (self1, Raise (AssertionError "Column already exists")).
Proof.
  unfold add_column at 1.
  destruct (bool_decide (name ∈ results_headers self)); [done|].
  intros Hadd.
  assert (name ∈ results_headers self1) as Hin.
  { destruct (column_num =? -1); injection Hadd as <-; simpl.
    - apply elem_of_app. right. by left.
    - rewrite py_insert_perm. by left. }
  unfold add_column. by rewrite bool_decide_eq_true_2.
Qed.

Lemma add_column_twice_witness :
  add_column "score" [PInt 7] 5
    (mkResults ["score"; "gene"] [[PInt 1; PStr "SPI1"]])
  = (mkResults ["score"; "gene"] [[PInt 1; PStr "SPI1"]],
     Raise (AssertionError "Column already exists")).
Proof.
  apply (add_column_twice (mkResults ["gene"] [[PStr "SPI1"]]) _ "score"
                          [PInt 1] [PInt 7] 0 5).
  reflexivity.
Defined.

(** X8. On a table with one value per header, [update_column] of a column
    that [get_colnum] finds returns normally whatever the number of values:
    row [i] takes value [i] in that column and keeps its other cells, and
    the rows beyond the end of the values are left as they were.  Headers
    and the number of rows do not change. *)
Theorem update_column_cells (self : LISA_Results) (name : string)
    (data : list pyval) (c : nat) :
  Forall (fun row => length row = length (results_headers self)) (results_rows self) →
  get_colnum self name = Ret c →
  ∃ rows',
    update_column name data self = (mkResults (results_headers self) rows', Ret tt)
    ∧ length rows' = length (results_rows self)
    ∧ ∀ i row, results_rows self !! i = Some row →
        rows' !! i
        = Some (match data !! i with
                | Some value => <[c:=value]> row
                | None => row
                end).
Proof.
  intros Hrows Hc. unfold update_column. rewrite Hc.
  rewrite set_cells_put.
  - eexists. split; [done|]. split; [apply put_cells_length|].
    intros i row Hrow.
    exact (put_cells_lookup (fun row value => <[c:=value]> row) _ _ _ _ Hrow).
  - eapply Forall_impl; [exact Hrows|]. intros row ->.
    by eapply get_colnum_lt.
Qed.

Lemma update_column_cells_witness :
  ∃ rows',
    update_column "score" [PInt 9]
      (mkResults ["gene"; "score"] [[PStr "SPI1"; PInt 3]; [PStr "MYC"; PInt 1]])
    = (mkResults ["gene"; "score"] rows', Ret tt)
    ∧ length rows' = 2%nat
    ∧ ∀ i row,
        [[PStr "SPI1"; PInt 3]; [PStr "MYC"; PInt 1]] !! i = Some row →
        rows' !! i
        = Some (match [PInt 9] !! i with
                | Some value => <[1%nat:=value]> row
                | None => row
                end).
Proof.
  apply (update_column_cells
           (mkResults ["gene"; "score"] [[PStr "SPI1"; PInt 3]; [PStr "MYC"; PInt 1]])
           "score" [PInt 9] 1).
  - repeat constructor.
  - reflexivity.
Defined.

(** ** Sorting: what cannot be ordered, and what is in order already *)

Section MixedKeys.
Context (P Q : pyval → Prop).
Context (P_lt : ∀ a b, P a → P b → py_lt a b = Ret (py_ltb a b)).
Context (Q_P_lt : ∀ a b, Q a → P b → py_lt a b = Raise TypeError).
Context (P_or_Q : ∀ a, P a ∨ Q a).

(** Once the sorted part holds keys of one kind, a key of the other kind
    ends the sort at its first comparison. *)
Lemma insort_all_other_kind (l acc : list (pyval * list pyval)) :
  acc ≠ [] → Forall (fun y => P y.1) acc → Exists (fun y => Q y.1) l →
  insort_all py_lt acc l = Raise TypeError.
Proof using P_lt Q_P_lt P_or_Q.
  revert acc. induction l as [|x l IH]; intros acc Hne Hacc Hex;
    [by apply Exists_nil in Hex|].
  assert (Q x.1 → insort_all py_lt acc (x :: l) = Raise TypeError) as Hraise.
  { intros HQ. destruct acc as [|y ys]; [done|].
    apply Forall_cons in Hacc as [Hy _]. simpl.
    by rewrite (Q_P_lt _ _ HQ Hy). }
  apply Exists_cons in Hex as [HQ|Hex]; [by apply Hraise|].
  destruct (P_or_Q x.1) as [HP|HQ]; [|by apply Hraise].
  simpl. rewrite (insort_ext py_lt py_ltb P P_lt) by done.
  destruct (insort_total py_ltb x acc) as [acc' E]. rewrite E. simpl.
  pose proof (insort_perm _ _ _ _ E) as Hperm.
  apply IH; [| |done].
  - intros ->. apply Permutation_nil_l in Hperm. by destruct acc.
  - rewrite Hperm. apply Forall_app. split; [done|by constructor].
Qed.
End MixedKeys.

Lemma is_int_or_str a : is_int a ∨ is_str a.
Proof. destruct a; [left|right]; by eexists. Qed.

Lemma is_str_or_int a : is_str a ∨ is_int a.
Proof. destruct a; [right|left]; by eexists. Qed.

Lemma norm_index_lt n i k : norm_index n i = Some k → (k < n)%nat.
Proof.
  unfold norm_index. intros H.
  destruct (0 <=? i) eqn:H0, (i <? Z.of_nat n) eqn:H1; simpl in H;
    try (injection H as <-; lia);
    destruct (- Z.of_nat n <=? i) eqn:H2, (i <? 0) eqn:H3; simpl in H;
    try done; injection H as <-; lia.
Qed.

Lemma py_lt_str_int a b : is_str a → is_int b → py_lt a b = Raise TypeError.
Proof. by intros [s ->] [z ->]. Qed.

Lemma py_lt_int_str a b : is_int a → is_str b → py_lt a b = Raise TypeError.
Proof. by intros [z ->] [s ->]. Qed.

Lemma insort_all_mixed (ks : list (pyval * list pyval)) :
  Exists (fun y => is_int y.1) ks → Exists (fun y => is_str y.1) ks →
  insort_all py_lt [] ks = Raise TypeError.
Proof.
  destruct ks as [|x l]; [by intros ?%Exists_nil|]. intros Hint Hstr. simpl.
  destruct (is_int_or_str x.1) as [Hx|Hx].
  - apply Exists_cons in Hstr as [[s Hs]|Hstr].
    { destruct Hx as [z Hz]. congruence. }
    apply (insort_all_other_kind is_int is_str py_lt_int py_lt_str_int
                                 is_int_or_str); [done| |done].
    by constructor.
  - apply Exists_cons in Hint as [[z Hz]|Hint].
    { destruct Hx as [s Hs]. congruence. }
    apply (insort_all_other_kind is_str is_int py_lt_str py_lt_int_str
                                 is_str_or_int); [done| |done].
    by constructor.
Qed.

(** The key [sortby] sorts on, once a name has been looked up. *)
Lemma sort_key_resolves (self : LISA_Results) (key : sort_key) (k : nat) :
  resolve_key self key = Some k →
  ∃ i, match key with
       | ByName name => do c <- get_colnum self name; Ret (Z.of_nat c)
       | ByIndex i => Ret i
       end = Ret i
       ∧ norm_index (length (results_headers self)) i = Some k.
Proof.
  intros Hkey. destruct key as [name|i]; simpl in Hkey.
  - exists (Z.of_nat k). unfold get_colnum. rewrite Hkey. split; [done|].
    apply norm_index_nat. by eapply column_position_lt.
  - by exists i.
Qed.

Lemma Exists_keyed (k : nat) (P : pyval → Prop) rows (ks : list (pyval * list pyval)) :
  map snd ks = rows → Forall (fun p => p.2 !! k = Some p.1) ks →
  Exists (fun row => ∃ v, row !! k = Some v ∧ P v) rows →
  Exists (fun y => P y.1) ks.
Proof.
  intros <- Hcell. induction Hcell as [|p ks Hp _ IH]; simpl;
    [by intros ?%Exists_nil|].
  intros [(v & Hv & HP)|Hex]%Exists_cons.
  - left. rewrite Hp in Hv. by injection Hv as ->.
  - right. by apply IH.
Qed.

(** X9. A column that holds an [int] in one row and a [str] in another cannot
    be sorted on: [sortby] raises [TypeError] and leaves the table as it
    was, rank column included. *)
Theorem sortby_mixed_column (self : LISA_Results) (key : sort_key)
    (add_rank : bool) (k : nat) :
  Forall (fun row => length row = length (results_headers self)) (results_rows self) →
  resolve_key self key = Some k →
  Exists (fun row => ∃ v, row !! k = Some v ∧ is_int v) (results_rows self) →
  Exists (fun row => ∃ v, row !! k = Some v ∧ is_str v) (results_rows self) →
  sortby key add_rank self = (self, Raise TypeError).
Proof.
  intros Hrows Hkey Hint Hstr.
  destruct (sort_key_resolves self key k Hkey) as (i & Hi & Hnorm).
  destruct (keyed_column k i (results_rows self)) as (ks & Hks & Hsnd & Hcell).
  { eapply Forall_impl; [exact Hrows|]. by intros row ->. }
  { eapply Forall_impl; [exact Hrows|]. intros row Hrow.
    apply lookup_lt_is_Some_2. rewrite Hrow. by eapply norm_index_lt. }
  unfold sortby. rewrite Hi. simpl. unfold py_sorted. rewrite Hks. simpl.
  rewrite insort_all_mixed; [done| |]; by eapply Exists_keyed.
Qed.

Lemma sortby_mixed_column_witness :
  sortby (ByIndex (-1)) true
    (mkResults ["gene"; "score"] [[PStr "SPI1"; PInt 3]; [PStr "MYC"; PStr "NA"]])
  = (mkResults ["gene"; "score"] [[PStr "SPI1"; PInt 3]; [PStr "MYC"; PStr "NA"]],
     Raise TypeError).
Proof.
  apply (sortby_mixed_column
           (mkResults ["gene"; "score"]
              [[PStr "SPI1"; PInt 3]; [PStr "MYC"; PStr "NA"]])
           (ByIndex (-1)) true 1).
  - repeat constructor.
  - reflexivity.
  - left. exists (PInt 3). split; [reflexivity|by eexists].
  - right. left. exists (PStr "NA"). split; [reflexivity|by eexists].
Defined.

Section SortedAlready.
Context {K A : Type} (ltb : K → K → bool).

(** An item that is below none of the sorted items goes to the end. *)
Lemma insort_last (x : K * A) acc :
  Forall (fun y => ltb x.1 y.1 = false) acc →
  insort (fun a b => Ret (ltb a b)) x acc = Ret (acc ++ [x]).
Proof.
  induction 1 as [|y ys Hy _ IH]; simpl; [done|].
  rewrite Hy. by rewrite IH.
Qed.

Lemma insort_all_ascending (l acc : list (K * A)) :
  ascending ltb (acc ++ l) →
  insort_all (fun a b => Ret (ltb a b)) acc l = Ret (acc ++ l).
Proof.
  revert acc; induction l as [|x l IH]; intros acc Hasc; simpl.
  - by rewrite app_nil_r.
  - rewrite insort_last.
    + simpl. rewrite IH; rewrite <- app_assoc; done.
    + unfold ascending in Hasc.
      clear IH. induction acc as [|y acc IH]; [constructor|].
      simpl in Hasc. apply StronglySorted_inv in Hasc as [Hrest Hy].
      constructor; [|by apply IH].
      rewrite Forall_forall in Hy. apply (Hy x).
      apply elem_of_app. right. by left.
Qed.
End SortedAlready.

Lemma natural_le_not_ltb a b : natural_le a b → py_ltb b a = false.
Proof.
  destruct a as [x|s], b as [y|t]; simpl; try done; [lia|].
  unfold String.leb, String.ltb. rewrite (String.compare_antisym s t).
  by destruct (String.compare t s).
Qed.

Lemma StronglySorted_fmap_inv_on {A B} (R : A → A → Prop) (S : B → B → Prop)
    (f : A → B) (l : list A) :
  (∀ x y, x ∈ l → y ∈ l → S (f x) (f y) → R x y) →
  StronglySorted S (map f l) → StronglySorted R l.
Proof.
  induction l as [|x l IH]; simpl; intros HSR Hs; [constructor|].
  apply StronglySorted_inv in Hs as [Hl Hx]. constructor.
  - apply IH; [|done]. intros y z Hy Hz. apply HSR; by right.
  - apply Forall_forall. intros y Hy. apply HSR; [by left|by right|].
    rewrite Forall_forall in Hx. apply Hx. by apply (list_elem_of_fmap_2 f).
Qed.

(** X10. Sorting changes nothing in a table that is in order: when the
    rows already stand in ascending order of a column of [int] cells only
    or of [str] cells only, [sortby] on that column without [add_rank]
    returns normally and leaves the table as it was. *)
Theorem sortby_sorted_unchanged (self : LISA_Results) (key : sort_key) (k : nat) :
  Forall (fun row => length row = length (results_headers self)) (results_rows self) →
  resolve_key self key = Some k →
  column_homogeneous k (results_rows self) →
  StronglySorted (cell_le k) (results_rows self) →
  sortby key false self = (self, Ret tt).
Proof.
  intros Hrows Hkey Hhom Hsorted.
  destruct (sort_key_resolves self key k Hkey) as (i & Hi & Hnorm).
  destruct (keyed_column k i (results_rows self)) as (ks & Hks & Hsnd & Hcell).
  { eapply Forall_impl; [exact Hrows|]. by intros row ->. }
  { eapply Forall_impl; [exact Hrows|]. intros row Hrow.
    apply lookup_lt_is_Some_2. rewrite Hrow. by eapply norm_index_lt. }
  assert (∃ P : pyval → Prop,
            (∀ a b, P a → P b → py_lt a b = Ret (py_ltb a b))
            ∧ Forall (fun p : pyval * list pyval => P p.1) ks)
    as (P & Hlt & HP).
  { assert (∀ Q : pyval → Prop,
              Forall (fun row => ∃ v, row !! k = Some v ∧ Q v) (results_rows self) →
              Forall (fun p : pyval * list pyval => Q p.1) ks) as Hto_keys.
    { intros Q HQ. rewrite Forall_forall in HQ. rewrite Forall_forall in Hcell.
      apply Forall_forall. intros p Hp.
      destruct (HQ p.2) as (v & Hv & HQv).
      { rewrite <- Hsnd. by apply (list_elem_of_fmap_2 snd). }
      rewrite (Hcell p Hp) in Hv. by injection Hv as ->. }
    destruct Hhom as [H|H].
    - exists is_int. split; [apply py_lt_int|by apply Hto_keys].
    - exists is_str. split; [apply py_lt_str|by apply Hto_keys]. }
  unfold sortby. rewrite Hi. simpl. unfold py_sorted. rewrite Hks. simpl.
  rewrite (insort_all_ext py_lt py_ltb P Hlt) by (done || constructor).
  rewrite insort_all_ascending.
  - simpl. rewrite Hsnd. by destruct self.
  - simpl. unfold ascending.
    apply (StronglySorted_fmap_inv_on _ (cell_le k) snd).
    + intros x y Hx Hy (a & b & Ha & Hb & Hle).
      rewrite Forall_forall in Hcell.
      rewrite (Hcell x Hx) in Ha. rewrite (Hcell y Hy) in Hb.
      injection Ha as <-. injection Hb as <-. by apply natural_le_not_ltb.
    + by rewrite Hsnd.
Qed.

Lemma sortby_sorted_unchanged_witness :
  sortby (ByName "score") false
    (mkResults ["gene"; "score"]
       [[PStr "MYC"; PInt 1]; [PStr "SPI1"; PInt 3]; [PStr "GATA1"; PInt 3]])
  = (mkResults ["gene"; "score"]
       [[PStr "MYC"; PInt 1]; [PStr "SPI1"; PInt 3]; [PStr "GATA1"; PInt 3]],
     Ret tt).
Proof.
  apply (sortby_sorted_unchanged
           (mkResults ["gene"; "score"]
              [[PStr "MYC"; PInt 1]; [PStr "SPI1"; PInt 3]; [PStr "GATA1"; PInt 3]])
           (ByName "score") 1).
  - repeat constructor.
  - reflexivity.
  - left. repeat constructor; (eexists; split; [reflexivity|by eexists]).
  - repeat constructor;
      (eexists _, _; split; [reflexivity|split; [reflexivity|simpl; lia]]).
Defined.

(** ** The log *)

Lemma append_indents (self : Log.t) text :
  Log.indents (Log.append self text) = Log.indents self
  ∧ Log.verbose (Log.append self text) = Log.verbose self.
Proof. unfold Log.append. by destruct (Log.enabled self). Qed.

(** X11. A section leaves the indentation as it found it whenever its body
    does, also when the body raises: the context manager ends the section
    on the way out, and hands on what the body returned or raised. *)
Theorem section_restores_indents {A} (self : Log.t) (header : string)
    (body : Log.t → Log.t * outcome A) :
  (∀ l, Log.indents (body l).1 = Log.indents l) →
  Log.indents (Log.section self header body).1 = Log.indents self
  ∧ (Log.section self header body).2 = (body (Log.start_section self header)).2.
Proof.
  intros Hbody. unfold Log.section.
  destruct (body (Log.start_section self header)) as [l r] eqn:E.
  split; [|done]. simpl.
  pose proof (Hbody (Log.start_section self header)) as H. rewrite E in H.
  simpl in H. rewrite H. unfold Log.start_section. simpl.
  destruct (append_indents self header) as [-> _]. lia.
Qed.

Lemma section_restores_indents_witness :
  Log.indents
    (Log.section (Log.mk [] 2 (Log.VBool true)) "Loading data"
       (fun l => (Log.append l "fetching", Raise (A := unit) URLError))).1 = 2
  ∧ (Log.section (Log.mk [] 2 (Log.VBool true)) "Loading data"
       (fun l => (Log.append l "fetching", Raise (A := unit) URLError))).2
    = Raise URLError.
Proof.
  apply (section_restores_indents (Log.mk [] 2 (Log.VBool true)) "Loading data"
           (fun l => (Log.append l "fetching", Raise (A := unit) URLError))).
  intros l. apply append_indents.
Defined.

Lemma append_verbose_lines (self : Log.t) (texts : list string) :
  Log.verbose self = Log.VBool true →
  Log.target (foldl Log.append self texts)
  = Log.target self
    ++ map (fun text => Log.tabs (Z.to_nat (Log.indents self)) +:+ text +:+ newline)
           texts
  ∧ Log.indents (foldl Log.append self texts) = Log.indents self
  ∧ Log.verbose (foldl Log.append self texts) = Log.verbose self.
Proof.
  revert self; induction texts as [|text texts IH]; intros self Hv; simpl.
  - by rewrite app_nil_r.
  - destruct (IH (Log.append self text)) as (Ht & Hi & Hv').
    { by rewrite (proj2 (append_indents self text)). }
    rewrite Ht, Hi, Hv'.
    destruct (append_indents self text) as [-> ->].
    split; [|done]. unfold Log.append at 1, Log.enabled. rewrite Hv. simpl.
    by rewrite <- app_assoc.
Qed.

(** X12. In a log with [verbose = True], a section writes its header at
    the current depth, one tab per level, and the lines appended inside it
    one tab deeper, each on a line of its own and in the order they were
    appended. *)
Theorem section_output (self : Log.t) (header : string) (texts : list string) :
  Log.verbose self = Log.VBool true →
  0 ≤ Log.indents self →
  Log.target
    (Log.section self header (fun l => (foldl Log.append l texts, Ret tt))).1
  = Log.target self
    ++ (Log.tabs (Z.to_nat (Log.indents self)) +:+ header +:+ newline)
    :: map (fun text =>
              Log.tabs (S (Z.to_nat (Log.indents self))) +:+ text +:+ newline)
           texts.
Proof.
  intros Hv Hd. unfold Log.section. simpl.
  destruct (append_verbose_lines (Log.start_section self header) texts) as (-> & _ & _).
  { unfold Log.start_section. simpl. by rewrite (proj2 (append_indents self header)). }
  unfold Log.start_section. simpl.
  rewrite (proj1 (append_indents self header)).
  replace (Z.to_nat (Log.indents self + 1)) with (S (Z.to_nat (Log.indents self))) by lia.
  unfold Log.append, Log.enabled. rewrite Hv. simpl.
  by rewrite <- app_assoc.
Qed.

Lemma section_output_witness :
  Log.target
    (Log.section (Log.mk [] 1 (Log.VBool true)) "Matching genes"
       (fun l => (foldl Log.append l ["read"; "matched"], Ret tt))).1
  = [tab +:+ "Matching genes" +:+ newline;
     tab +:+ tab +:+ "read" +:+ newline;
     tab +:+ tab +:+ "matched" +:+ newline].
Proof.
  apply (section_output (Log.mk [] 1 (Log.VBool true)) "Matching genes"
                        ["read"; "matched"]).
  - reflexivity.
  - simpl; lia.
Defined.

(** X13. A log with [verbose = False] stays silent only while its
    sections are balanced: [append] writes nothing when the indentation is
    not negative, and writes the text when it is, because [False] also
    counts as the integer 0 in the second test of [append]. *)
Theorem quiet_log_silent_iff_balanced (self : Log.t) (text : string) :
  Log.verbose self = Log.VBool false →
  (Log.append self text = self ↔ 0 ≤ Log.indents self)
  ∧ (Log.indents self < 0 →
     Log.target (Log.append self text)
     = Log.target self
       ++ [Log.tabs (Z.to_nat (Log.indents self)) +:+ text +:+ newline]).
Proof.
  intros Hv. unfold Log.append, Log.enabled. rewrite Hv. simpl.
  destruct (Log.indents self <? 0) eqn:E.
  - split; [|done]. split; [|lia].
    intros Heq. apply (f_equal Log.target) in Heq. simpl in Heq.
    apply (f_equal length) in Heq. rewrite length_app in Heq. simpl in Heq. lia.
  - split; [|lia]. split; [lia|done].
Qed.

Lemma quiet_log_silent_iff_balanced_witness :
  Log.target (Log.append (Log.end_section (Log.mk [] 0 (Log.VBool false))) "done")
  = ["done" +:+ newline].
Proof.
  refine (proj2 (quiet_log_silent_iff_balanced
                   (Log.end_section (Log.mk [] 0 (Log.VBool false))) "done" _) _).
  - reflexivity.
  - simpl; lia.
Defined.

(** ** The loading bar *)

Lemma increment_progress (self : LoadingBar.t) :
  LoadingBar.progress (LoadingBar.increment self)
  = (if LoadingBar.increments self <=? LoadingBar.progress self
     then LoadingBar.progress self else LoadingBar.progress self + 1)
  ∧ LoadingBar.increments (LoadingBar.increment self) = LoadingBar.increments self.
Proof.
  unfold LoadingBar.increment, LoadingBar.is_finished.
  by destruct (LoadingBar.increments self <=? LoadingBar.progress self).
Qed.

(** X14. A new bar counts its increments and stops at the number it was
    made for: after [n] calls of [increment] the progress is [n], or that
    number when [n] exceeds it (0 when the number is negative); the bar is
    finished exactly from then on, and further calls change nothing. *)
Theorem loading_bar_saturates (label : string) (increments length : Z)
    (cold_start : bool) (n : nat) :
  let bar := Nat.iter n LoadingBar.increment
                      (LoadingBar.__init__ label increments length cold_start) in
  LoadingBar.progress bar = Z.min (Z.of_nat n) (Z.max 0 increments)
  ∧ (LoadingBar.is_finished bar = true ↔ increments ≤ Z.of_nat n)
  ∧ (LoadingBar.is_finished bar = true → LoadingBar.increment bar = bar).
Proof.
  intros bar.
  assert (LoadingBar.progress bar = Z.min (Z.of_nat n) (Z.max 0 increments)
          ∧ LoadingBar.increments bar = increments) as [Hp Hi].
  { subst bar. induction n as [|n [IHp IHi]]; [simpl; split; [lia|done]|].
    rewrite Nat.iter_succ.
    destruct (increment_progress
                (Nat.iter n LoadingBar.increment
                   (LoadingBar.__init__ label increments length cold_start)))
      as [-> ->].
    rewrite IHp, IHi. split; [|done].
    destruct (increments <=? Z.min (Z.of_nat n) (Z.max 0 increments)) eqn:E; lia. }
  clearbody bar.
  split; [done|]. unfold LoadingBar.increment, LoadingBar.is_finished.
  rewrite Hp, Hi. split.
  - rewrite Z.leb_le. lia.
  - by intros ->.
Qed.

(** ** Sparse assembly: repeated indices and surplus columns *)

Lemma sum_at_absent (r : Z) (l : list (Z * Z)) :
  r ∉ l.*1 → sum_at r l = 0.
Proof.
  induction l as [|[i v] l IH]; simpl; [done|].
  intros [Hne H]%not_elem_of_cons.
  destruct (Z.eqb_spec i r); [congruence|]. by apply IH.
Qed.

(** The entry of a row is the sum of the values given for it, in the
    arithmetic of [int64]. *)
Lemma fold_entries_sum (l : list (Z * Z)) (acc : gmap Z Z) (r : Z) :
  Forall (fun iv => fits_int64 iv.2) l →
  (∀ x, acc !! r = Some x → fits_int64 x) →
  foldl (fun col '(i, v) => sparse.add_entry col i v) acc l !! r
  = if bool_decide (r ∈ l.*1)
    then Some (wrap_int64 (default 0 (acc !! r) + sum_at r l))
    else acc !! r.
Proof.
  intros Hl. revert acc; induction Hl as [|[i v] l Hv _ IH]; intros acc Hacc.
  - by rewrite bool_decide_eq_false_2 by apply not_elem_of_nil.
  - cbn [foldl fmap list_fmap fst sum_at foldr].
    change (foldr (fun '(i, v) s => if i =? r then v + s else s) 0 l)
      with (sum_at r l).
    cbn [snd] in Hv.
    destruct (Z.eqb_spec i r) as [->|Hne].
    + rewrite (bool_decide_eq_true_2 (r ∈ r :: l.*1)) by left.
      assert (∃ y, sparse.add_entry acc r v !! r = Some y
                   ∧ fits_int64 y
                   ∧ wrap_int64 y = wrap_int64 (default 0 (acc !! r) + v))
        as (y & Hy & Hfit & Hwrap).
      { unfold sparse.add_entry. destruct (acc !! r) as [x|] eqn:Hx.
        - exists (wrap_int64 (x + v)). rewrite lookup_insert_eq.
          split; [done|]. split; [apply wrap_int64_range|].
          cbn [default]. by rewrite wrap_int64_fits by apply wrap_int64_range.
        - exists v. rewrite lookup_insert_eq. split; [done|]. split; [done|].
          cbn [default]. by rewrite Z.add_0_l. }
      rewrite IH by (intros x; rewrite Hy; by intros [= <-]).
      rewrite Hy. cbn [default].
      case_bool_decide as Hin; f_equal.
      * rewrite <- (wrap_int64_add_l y), Hwrap, wrap_int64_add_l. f_equal. lia.
      * rewrite (sum_at_absent r l Hin), Z.add_0_r.
        rewrite <- (wrap_int64_fits y) by done. by rewrite Hwrap.
    + assert (sparse.add_entry acc i v !! r = acc !! r) as Hsame.
      { unfold sparse.add_entry. destruct (acc !! i);
          by rewrite lookup_insert_ne. }
      rewrite IH by (intros x; rewrite Hsame; apply Hacc).
      rewrite Hsame. case_bool_decide as Hin.
      * by rewrite bool_decide_eq_true_2 by (by right).
      * rewrite bool_decide_eq_false_2; [done|].
        intros [?|?]%elem_of_cons; [congruence|done].
Qed.

(** X15. For N >= 1 columns of values that fit [int64], with equal
    lengths of indices and values, every index in [[0, col_length)] and a
    number of rows that fits a signed 64-bit word, the assembly returns a
    matrix of shape [(col_length, N)] in which column j stores an entry for
    exactly the rows that occur among its indices.  A row index given
    several times is stored once, and its entry is the sum of all the
    values given for that row, taken in the arithmetic of [int64], where
    it wraps around, and then held as the element type of the matrix
    holds it. *)
Theorem ragged_array_sums_repeated_indices
    (indices : list (list Z)) (values : list (list int64)) (col_length : Z) :
  indices ≠ [] →
  0 ≤ col_length ≤ int64_max →
  Forall2 (fun ic vc => length ic = length vc
                        ∧ Forall (fun i => 0 ≤ i < col_length) ic)
          indices values →
  ∃ m,
    ragged_array_to_sparse_matrix indices values col_length = Ret m
    ∧ sparse.shape m = (col_length, Z.of_nat (length indices))
    ∧ sparse.element_type m = assembled_type values
    ∧ ∀ j ic vc, indices !! j = Some ic → values !! j = Some vc →
        ∃ col, sparse.columns m !! j = Some col
               ∧ ∀ r, col !! r
                      = if bool_decide (r ∈ ic)
                        then Some (stored (assembled_type values)
                                     (wrap_int64
                                        (sum_at r (zip ic (map int64_val vc)))))
                        else None.
Proof.
  intros Hne Hcl Hcols. rewrite ragged_array_columns by done.
  eexists; split; [done|]. cbn [sparse.shape sparse.element_type sparse.columns].
  split; [done|]. split; [done|].
  intros j ic vc Hic Hvc. eexists. split.
  - rewrite lookup_zip_with, Hic. simpl. rewrite Hvc. simpl. done.
  - intros r. rewrite lookup_fmap, fold_entries_sum, lookup_empty.
    + destruct (Forall2_lookup_lr _ _ _ _ _ _ Hcols Hic Hvc) as [Hlen _].
      rewrite fst_zip by (rewrite length_map; lia).
      cbn [default]. rewrite Z.add_0_l. by case_bool_decide.
    + apply Forall_forall. intros [i v] Hiv. cbn [snd].
      apply elem_of_zip_r in Hiv.
      apply list_elem_of_fmap in Hiv as (x & -> & _). apply int64_fits.
    + intros x. by rewrite lookup_empty.
Qed.

Lemma ragged_array_sums_repeated_indices_witness :
  ∃ m,
    ragged_array_to_sparse_matrix
      [[1; 0; 1]; [0]]
      [[mk_int64 5 I; mk_int64 6 I; mk_int64 7 I]; [mk_int64 1 I]] 2
    = Ret m
    ∧ sparse.shape m = (2, 2)
    ∧ sparse.element_type m = sparse.Int64
    ∧ ∀ j ic vc,
        [[1; 0; 1]; [0]] !! j = Some ic →
        [[mk_int64 5 I; mk_int64 6 I; mk_int64 7 I]; [mk_int64 1 I]] !! j = Some vc →
        ∃ col, sparse.columns m !! j = Some col
               ∧ ∀ r, col !! r
                      = if bool_decide (r ∈ ic)
                        then Some (stored sparse.Int64
                                     (wrap_int64
                                        (sum_at r (zip ic (map int64_val vc)))))
                        else None.
Proof.
  apply (ragged_array_sums_repeated_indices
           [[1; 0; 1]; [0]]
           [[mk_int64 5 I; mk_int64 6 I; mk_int64 7 I]; [mk_int64 1 I]] 2).
  - discriminate.
  - unfold int64_max. lia.
  - repeat constructor; lia.
Defined.

(** Two values of 2^62 given for one row: their sum does not fit [int64],
    and the entry stored is -2^63. *)
Example ragged_array_sum_wraps :
  ragged_array_to_sparse_matrix
    [[0; 0]]
    [[mk_int64 4611686018427387904 I; mk_int64 4611686018427387904 I]] 1
  = Ret (sparse.mk (1, 1) sparse.Int64 [{[0 := -9223372036854775808]}]).
Proof. reflexivity. Qed.

Lemma zip_take_shorter {A B} (l : list A) (k : list B) :
  zip l k = zip (take (Nat.min (length l) (length k)) l)
                (take (Nat.min (length l) (length k)) k).
Proof.
  revert k; induction l as [|x l IH]; intros [|y k]; simpl; try done.
  by rewrite <- IH.
Qed.

(** X16. Index and value columns are paired off from the first; when one
    of the two sequences has more columns than the other, the surplus
    columns are not looked at: the result, a matrix or an exception, is
    that for the columns both have. *)
Theorem ragged_array_ignores_surplus_columns
    (indices : list (list Z)) (values : list (list int64)) (col_length : Z) :
  let n := Nat.min (length indices) (length values) in
  ragged_array_to_sparse_matrix indices values col_length
  = ragged_array_to_sparse_matrix (take n indices) (take n values) col_length.
Proof.
  simpl. unfold ragged_array_to_sparse_matrix.
  by rewrite (zip_take_shorter indices values) at 1.
Qed.

(** ** The schedule of assays *)

Lemma string_compare_gt_lt a b :
  String.compare a b = Gt → String.ltb b a = true.
Proof.
  intros H. unfold String.ltb. rewrite String.compare_antisym, H. done.
Qed.

Lemma insert_str_elem (a x : string) (l : list string) :
  x ∈ LISA.insert_str a l ↔ x = a ∨ x ∈ l.
Proof.
  induction l as [|b l IH]; simpl.
  - rewrite list_elem_of_singleton. split; [by left|]. by intros [?|?%elem_of_nil].
  - destruct (String.compare a b) eqn:E.
    + apply String.compare_eq_iff in E as ->.
      split; [by right|]. intros [->|?]; [by left|done].
    + rewrite !elem_of_cons. tauto.
    + rewrite !elem_of_cons, IH. tauto.
Qed.

Lemma insert_str_sorted (a : string) (l : list string) :
  StronglySorted (fun x y => String.ltb x y = true) l →
  StronglySorted (fun x y => String.ltb x y = true) (LISA.insert_str a l).
Proof.
  induction 1 as [|b l Hl IH Hb]; simpl; [by repeat constructor|].
  destruct (String.compare a b) eqn:E.
  - by constructor.
  - assert (String.ltb a b = true) as Hab by (unfold String.ltb; by rewrite E).
    constructor; [by constructor|]. constructor; [done|].
    eapply Forall_impl; [exact Hb|]. intros y Hy. simpl in Hy.
    by eapply string_ltb_trans.
  - constructor; [done|]. apply Forall_forall. intros y Hy.
    apply insert_str_elem in Hy as [->|Hy]; [by apply string_compare_gt_lt|].
    rewrite Forall_forall in Hb. by apply Hb.
Qed.

(** X17. However the requested assays are listed, [sorted(list(set(...)))]
    gives the same kinds, each once, in strictly ascending order of their
    code points. *)
Theorem sorted_set_canonical (l : list string) :
  StronglySorted (fun x y => String.ltb x y = true) (LISA.sorted_set l)
  ∧ NoDup (LISA.sorted_set l)
  ∧ ∀ x, x ∈ LISA.sorted_set l ↔ x ∈ l.
Proof.
  assert (StronglySorted (fun x y => String.ltb x y = true) (LISA.sorted_set l)) as Hs.
  { induction l as [|a l IH]; simpl; [constructor|]. by apply insert_str_sorted. }
  split; [done|]. split.
  - induction Hs as [|x xs _ IH Hx]; [constructor|].
    constructor; [|done]. intros Hin.
    rewrite Forall_forall in Hx. pose proof (Hx x Hin) as H.
    by rewrite string_ltb_irrefl in H.
  - intros x. clear Hs. induction l as [|a l IH]; [done|].
    cbn [LISA.sorted_set foldr]. fold (LISA.sorted_set l).
    by rewrite insert_str_elem, IH, elem_of_cons.
Qed.

(** ** What construction guarantees *)

Lemma set_cores_bounds cpu_count n cores c :
  LISA._set_cores cpu_count n cores = Ret c →
  -1 ≤ cores ∧ c ≤ n ∧ c ≤ cpu_count - 1
  ∧ c = Z.min (Z.min (if cores <=? -1 then cpu_count - 1 else cores)
                     (cpu_count - 1)) n.
Proof.
  unfold LISA._set_cores. destruct (-1 <=? cores) eqn:E; simpl; [|done].
  intros [= <-]. split; [lia|]. split; [lia|]. split; [lia|done].
Qed.

(** X18. Every object the constructor returns has passed all its checks:
    the numbers of datasets satisfy [0 < selected < 25] and
    [selected < anova < 500]; the worker count is not 0 and exceeds
    neither the datasets selected nor the logical cores minus one; the
    schedule is the sorted set of the requested assays, is not empty, and
    holds configured kinds only.  The map style is always "basic" and no
    RP matrix is to be generated; no mask has been computed and no assay
    registered yet. *)
Theorem init_establishes (base : LISA_Core.t) (cpu_count cores : Z)
    (assays : list string) (self : LISA.t) :
  LISA.__init__ base cpu_count cores assays = Ret self →
  let cfg := LISA_Core._config base in
  (0 < LISA.num_datasets_selected self < 25
   ∧ LISA.num_datasets_selected self < LISA.num_datasets_selected_anova self < 500)
  ∧ (LISA.cores self ≠ 0
     ∧ LISA.cores self ≤ LISA.num_datasets_selected self
     ∧ LISA.cores self ≤ cpu_count - 1)
  ∧ (LISA.schedule_assays self = LISA.sorted_set assays
     ∧ assays ≠ []
     ∧ Forall (fun assay => assay ∈ lisa_params_assays cfg) assays)
  ∧ (LISA.rp_map self = LISA.RPName "basic"
     ∧ LISA.generate_rp_matrix self = false)
  ∧ (LISA.factor_gene_mask self = None
     ∧ LISA.factor_mask_keys self = None
     ∧ LISA_Core.assays (LISA.core self) = LISA_Core.assays base).
Proof.
  unfold LISA.__init__.
  destruct (0 <? Z.of_nat (length assays)) eqn:Hlen; simpl; [|done].
  destruct (forallb _ assays) eqn:Hall; simpl; [|done].
  destruct (LISA._set_cores cpu_count _ cores) as [c|] eqn:Hc; simpl; [|done].
  destruct (_ <? lisa_params_num_datasets_selected_anova _) eqn:H1; simpl; [|done].
  destruct (0 <? lisa_params_num_datasets_selected_anova _) eqn:H2; simpl; [|done].
  destruct (0 <? lisa_params_num_datasets_selected _) eqn:H3; simpl; [|done].
  destruct (_ <? 500) eqn:H4; simpl; [|done].
  destruct (_ <? 25) eqn:H5; simpl; [|done].
  unfold LISA.py_mod. destruct (c =? 0) eqn:H6; simpl; [done|].
  destruct (bool_decide ("basic" ∈ _)) eqn:H7; simpl; [|done].
  intros [= <-]. simpl.
  apply set_cores_bounds in Hc as (_ & Hc1 & Hc2 & _).
  apply forallb_bool_decide in Hall.
  split; [lia|]. split; [lia|]. split.
  { split; [done|]. split; [|done]. intros ->. discriminate Hlen. }
  split; [done|]. split; [done|]. split; [done|].
  by destruct (negb _).
Qed.

Lemma init_establishes_witness :
  LISA.cores example_lisa ≠ 0
  ∧ LISA.schedule_assays example_lisa
    = LISA.sorted_set ["Direct"; "DNase"; "Direct"]
  ∧ LISA.generate_rp_matrix example_lisa = false.
Proof.
  pose proof (init_establishes example_base 11 10 ["Direct"; "DNase"; "Direct"]
                               example_lisa eq_refl)
    as (_ & (Hc & _) & (Hs & _) & (_ & Hg) & _).
  split; [exact Hc|]. split; [exact Hs|exact Hg].
Defined.

(** X19. With arguments and configuration that pass every other check,
    construction cannot succeed without a core to spare: on a host with a
    single logical core, and for a request of 0 workers, the worker count
    comes out as 0 and the test for uneven division raises
    [ZeroDivisionError]. *)
Theorem init_without_spare_core (base : LISA_Core.t) (cpu_count cores : Z)
    (assays : list string) :
  init_preconditions base assays →
  -1 ≤ cores →
  1 ≤ cpu_count →
  cpu_count = 1 ∨ cores = 0 →
  LISA.__init__ base cpu_count cores assays = Raise ZeroDivisionError.
Proof.
  intros (Hne & Hassays & Hn & Hanova & Hbasic) Hcores Hcpu Hzero.
  unfold LISA.__init__.
  destruct assays as [|a assays]; [done|].
  replace (0 <? Z.of_nat (length (a :: assays))) with true
    by (symmetry; apply Z.ltb_lt; simpl; lia).
  rewrite (proj2 (forallb_bool_decide _ _)) by done.
  cbn [negb].
  assert (LISA._set_cores cpu_count
            (lisa_params_num_datasets_selected (LISA_Core._config base)) cores
          = Ret 0) as ->.
  { unfold LISA._set_cores. rewrite (proj2 (Z.leb_le _ _)) by done. simpl.
    f_equal. destruct (cores <=? -1) eqn:E; lia. }
  cbn [obind].
  rewrite (proj2 (Z.ltb_lt _ (lisa_params_num_datasets_selected_anova _))) by lia.
  rewrite (proj2 (Z.ltb_lt 0 (lisa_params_num_datasets_selected_anova _))) by lia.
  rewrite (proj2 (Z.ltb_lt 0 (lisa_params_num_datasets_selected _))) by lia.
  rewrite (proj2 (Z.ltb_lt _ 500)) by lia.
  rewrite (proj2 (Z.ltb_lt _ 25)) by lia.
  reflexivity.
Qed.

Lemma init_without_spare_core_witness :
  LISA.__init__ example_base 1 4 ["Direct"] = Raise ZeroDivisionError.
Proof.
  apply init_without_spare_core.
  - split; [discriminate|].
    split; [repeat constructor; apply (bool_decide_unpack _); vm_compute; exact I|].
    split; [simpl; lia|]. split; [simpl; lia|].
    apply (bool_decide_unpack _); vm_compute; exact I.
  - lia.
  - lia.
  - by left.
Defined.

(** ** Loading the RP map: the paths that succeed *)

(** X20. When the file of the map is on disk, [_load_rp_map] returns the
    stored matrix and keeps it in [self.rp_map]; the download is not
    called, whatever it would do, and the files are left as they are.
    From then on the call returns that matrix without looking at any
    file. *)
Theorem load_rp_map_local (self : LISA.t) (fs : files) (name : string)
    (m : sparse.matrix) :
  let base := LISA.core self in
  let path :=
    paths_rp_map (LISA_Core._config base) (LISA_Core.PACKAGE_PATH base)
                 (LISA_Core.species base) (LISA_Core.REQURED_DATASET_VERSION base)
                 name in
  LISA.rp_map self = LISA.RPName name →
  fs !! path = Some m →
  LISA._load_rp_map self fs = (LISA.set_rp_map self (LISA.RPMatrix m), fs, Ret m)
  ∧ ∀ fs',
      LISA._load_rp_map (LISA.set_rp_map self (LISA.RPMatrix m)) fs'
      = (LISA.set_rp_map self (LISA.RPMatrix m), fs', Ret m).
Proof.
  intros base path Hname Hfile. split.
  - unfold LISA._load_rp_map. rewrite Hname. fold base. fold path.
    rewrite Hfile. rewrite bool_decide_eq_true_2 by (by eexists).
    cbn [negb]. unfold LISA.load_npz. by rewrite Hfile.
  - intros fs'. reflexivity.
Qed.

Lemma load_rp_map_local_witness :
  LISA._load_rp_map example_lisa
    {[ "/pkg/data/hg38/2.1/basic.npz" := sparse.mk (2, 1) sparse.Int64 [{[0 := 5]}] ]}
  = (LISA.set_rp_map example_lisa (LISA.RPMatrix (sparse.mk (2, 1) sparse.Int64 [{[0 := 5]}])),
     {[ "/pkg/data/hg38/2.1/basic.npz" := sparse.mk (2, 1) sparse.Int64 [{[0 := 5]}] ]},
     Ret (sparse.mk (2, 1) sparse.Int64 [{[0 := 5]}])).
Proof.
  refine (proj1 (load_rp_map_local example_lisa _ "basic" _ _ _)).
  - reflexivity.
  - apply lookup_singleton_eq.
Defined.

(** X21. When the file is not on disk and the download returns normally,
    the map is loaded from the path the file was to be stored at: the
    matrix found there is returned and kept, and if the download left no
    file there, loading raises [OSError] and [self.rp_map] stays the
    name. *)
Theorem load_rp_map_fetched (self : LISA.t) (fs fs' : files) (name : string) :
  let base := LISA.core self in
  let cfg := LISA_Core._config base in
  let path :=
    paths_rp_map cfg (LISA_Core.PACKAGE_PATH base) (LISA_Core.species base)
                 (LISA_Core.REQURED_DATASET_VERSION base) name in
  LISA.rp_map self = LISA.RPName name →
  fs !! path = None →
  LISA_Core.fetch_from_cistrome base
    (downloads_rp_maps cfg (LISA_Core.species base)
                       (LISA_Core.REQURED_DATASET_VERSION base) name)
    path fs = (fs', Ret tt) →
  LISA._load_rp_map self fs
  = match fs' !! path with
    | Some m => (LISA.set_rp_map self (LISA.RPMatrix m), fs', Ret m)
    | None => (self, fs', Raise OSError)
    end.
Proof.
  intros base cfg path Hname Habsent Hfetch. unfold LISA._load_rp_map.
  rewrite Hname. fold base. fold cfg. fold path.
  rewrite Habsent.
  rewrite bool_decide_eq_false_2 by (by intros [? ?]). cbn [negb].
  rewrite Hfetch. unfold LISA.load_npz. by destruct (fs' !! path).
Qed.

(** A host where the download stores a one-entry matrix at the path. *)
Lemma load_rp_map_fetched_witness :
  let mirror :=
    LISA_Core.mk "hg38" "chipseq" example_config (Log.mk [] 0 (Log.VBool true))
      "/pkg" "2.1" example_catalogue [] [] []
      (fun url path fs => (<[path := sparse.mk (2, 1) sparse.Int64 [{[0 := 5]}]]> fs, Ret tt)) in
  (LISA._load_rp_map (LISA.set_core example_lisa mirror) ∅).2
  = Ret (sparse.mk (2, 1) sparse.Int64 [{[0 := 5]}]).
Proof.
  intros mirror.
  rewrite (load_rp_map_fetched (LISA.set_core example_lisa mirror) ∅
             (<["/pkg/data/hg38/2.1/basic.npz" := sparse.mk (2, 1) sparse.Int64 [{[0 := 5]}]]> ∅)
             "basic" eq_refl (lookup_empty _) eq_refl).
  reflexivity.
Defined.

(** ** Registering the assays *)

Lemma add_assays_dispatched (schedule : list string) (self : LISA.t)
    (mask : list bool) :
  Forall dispatched schedule →
  LISA.add_assays self mask schedule
  = (LISA.set_core self
       (foldl LISA_Core.add_assay (LISA.core self)
              (map (assay_for self mask) schedule)),
     Ret tt).
Proof.
  intros Hall; revert self.
  induction Hall as [|kind schedule Hkind _ IH]; intros self.
  - by destruct self.
  - cbn [LISA.add_assays map foldl].
    destruct Hkind as [->|[->| ->]]; cbn [String.eqb Ascii.eqb Bool.eqb orb];
      rewrite IH; reflexivity.
Qed.

Lemma foldl_add_assay (l : list assay) (base : LISA_Core.t) :
  LISA_Core.assays (foldl LISA_Core.add_assay base l) = LISA_Core.assays base ++ l.
Proof.
  revert base; induction l as [|a l IH]; intros base; simpl.
  - by rewrite app_nil_r.
  - rewrite IH. simpl. by rewrite <- app_assoc.
Qed.

(** X22. When every scheduled kind is one the scheduler dispatches on,
    [_initialize_assays] returns normally after registering, behind the
    assays already registered, one assay per scheduled kind and in the
    order of the schedule: a peak assay on the binding data for "Direct",
    an accessibility assay of that technology otherwise, all with the same
    mask and worker count.  The mask is the one the object already has, and
    is computed only when it has none; afterwards the object has it. *)
Theorem initialize_assays_registers (self : LISA.t) :
  Forall dispatched (LISA.schedule_assays self) →
  ∃ self',
    LISA._initialize_assays self = (self', Ret tt)
    ∧ LISA_Core.assays (LISA.core self')
      = LISA_Core.assays (LISA.core self)
        ++ map (assay_for self (mask_in_use self)) (LISA.schedule_assays self)
    ∧ LISA.factor_gene_mask self' = Some (mask_in_use self).
Proof.
  intros Hall. unfold LISA._initialize_assays, mask_in_use.
  destruct (LISA.factor_gene_mask self) as [mask|] eqn:Hmask.
  - rewrite add_assays_dispatched by done.
    eexists. split; [done|]. simpl. by rewrite foldl_add_assay.
  - destruct (get_factor_gene_mask_returns self) as (keys & -> & _).
    cbn [LISA.schedule_assays LISA.set_factor_mask_keys LISA.set_factor_gene_mask].
    rewrite add_assays_dispatched by done.
    eexists. split; [done|]. simpl. by rewrite foldl_add_assay.
Qed.

Lemma initialize_assays_registers_witness :
  ∃ self',
    LISA._initialize_assays example_lisa = (self', Ret tt)
    ∧ LISA_Core.assays (LISA.core self')
      = [Accesibility_Assay "DNase" [false; true; false; true] (200, 10) 10 false;
         PeakRP_Assay "chipseq" false]
    ∧ LISA.factor_gene_mask self' = Some [false; true; false; true].
Proof.
  refine (initialize_assays_registers example_lisa _).
  apply Forall_cons_2; [right; by left|].
  apply Forall_cons_2; [by left|]. apply Forall_nil_2.
Defined.

(** ** The accessibility columns of the results *)

Lemma list_ascii_of_string_app (s t : string) :
  list_ascii_of_string (s +:+ t) = list_ascii_of_string s ++ list_ascii_of_string t.
Proof. induction s as [|a s IH]; simpl; [done|by rewrite IH]. Qed.

Lemma string_app_inv_tail (s t suffix : string) :
  s +:+ suffix = t +:+ suffix → s = t.
Proof.
  intros Heq. apply (f_equal list_ascii_of_string) in Heq.
  rewrite !list_ascii_of_string_app in Heq. apply app_inv_tail in Heq.
  apply (f_equal string_of_list_ascii) in Heq.
  by rewrite !string_of_list_ascii_of_string in Heq.
Qed.

Lemma z_score_columns_of_cons (keys factors : list string) (assay : string)
    (info : list (string * list pyval))
    (rest : list (string * list (string * list pyval))) :
  z_score_columns_of keys factors ((assay, info) :: rest)
  = match LISA.dict_pop info "factor_acc_z_scores" with
    | Some (z_scores, _) =>
        (assay +:+ "factor_accessibility_z_score",
         z_score_column keys factors z_scores)
        :: z_score_columns_of keys factors rest
    | None => z_score_columns_of keys factors rest
    end.
Proof.
  unfold z_score_columns_of. simpl.
  by destruct (LISA.dict_pop info "factor_acc_z_scores") as [[? ?]|].
Qed.

Lemma z_score_columns_collects (keys factors : list string)
    (assay_info : list (string * list (string * list pyval)))
    (new_columns : list (string * list pyval)) :
  NoDup (map fst assay_info) →
  (∀ assay, assay ∈ map fst assay_info →
            assay +:+ "factor_accessibility_z_score" ∉ dict_keys new_columns) →
  LISA.z_score_columns (Some keys) factors assay_info new_columns
  = (map (fun '(assay, info) => (assay, without_z_scores info)) assay_info,
     Some (new_columns ++ z_score_columns_of keys factors assay_info)).
Proof.
  revert new_columns.
  induction assay_info as [|[assay info] rest IH]; intros new_columns Hnodup Hfresh.
  - simpl. by rewrite app_nil_r.
  - cbn [map fst] in Hnodup. apply NoDup_cons in Hnodup as [Hassay Hnodup].
    cbn [LISA.z_score_columns map]. rewrite z_score_columns_of_cons.
    unfold without_z_scores at 1.
    destruct (LISA.dict_pop info "factor_acc_z_scores") as [[z_scores info']|].
    + rewrite dict_set_fresh by (apply Hfresh; simpl; left).
      rewrite IH; [by rewrite <- app_assoc|done|].
      intros a Ha. unfold dict_keys. rewrite map_app. simpl.
      intros [Hin|Hin%list_elem_of_singleton]%elem_of_app.
      * by apply (Hfresh a); [simpl; right|].
      * apply string_app_inv_tail in Hin. by subst a.
    + rewrite IH; [done|done|].
      intros a Ha. apply Hfresh. simpl. by right.
Qed.

(** X23. With the mask keys set and no keyword of the caller named like
    an accessibility column, [_format_results] hands the base class the
    caller's arguments with one column
    [assay + "factor_accessibility_z_score"] for each assay whose
    information has the key "factor_acc_z_scores", in the order of the
    assays and in front of the caller's keywords; and that key is taken
    out of the information of every assay, both in what the base class
    receives and in the dictionary of the caller. *)
Theorem format_results_adds_columns {P G R : Type}
    (super_format_results :
       P → list (string * list (string * list pyval)) → G →
       list (string * list pyval) → outcome R)
    (self : LISA.t) (keys : list string) (assay_pvals : P)
    (assay_info : list (string * list (string * list pyval)))
    (gene_info_dict : G) (kwargs : list (string * list pyval)) :
  let stripped :=
    map (fun '(assay, info) => (assay, without_z_scores info)) assay_info in
  let columns :=
    z_score_columns_of keys (LISA_Core.factor_metadata_factor (LISA.core self))
                       assay_info in
  LISA.factor_mask_keys self = Some keys →
  NoDup (map fst assay_info) →
  (∀ assay, assay ∈ map fst assay_info →
            assay +:+ "factor_accessibility_z_score" ∉ dict_keys kwargs) →
  LISA._format_results super_format_results self assay_pvals assay_info
                       gene_info_dict kwargs
  = (stripped,
     LISA.Formatted (super_format_results assay_pvals stripped gene_info_dict
                                     (columns ++ kwargs))).
Proof.
  intros stripped columns Hkeys Hnodup Hclash. unfold LISA._format_results.
  rewrite Hkeys, z_score_columns_collects; [|done|intros ? _; apply not_elem_of_nil].
  cbn [app]. fold stripped. fold columns.
  assert (forallb (fun key => negb (bool_decide (key ∈ dict_keys kwargs)))
                  (dict_keys columns) = true) as ->; [|done].
  apply forallb_forall. intros key Hkey%list_elem_of_In.
  apply negb_true_iff, bool_decide_eq_false_2.
  unfold dict_keys, columns, z_score_columns_of in Hkey.
  apply list_elem_of_fmap in Hkey as ([key' col] & -> & Hin).
  apply list_elem_of_omap in Hin as ([assay info] & Hin & Hsome).
  destruct (LISA.dict_pop info "factor_acc_z_scores") as [[z_scores ?]|];
    [|done].
  injection Hsome as <- _. apply Hclash.
  apply list_elem_of_fmap. by exists (assay, info).
Qed.

Lemma format_results_adds_columns_witness :
  LISA._format_results
    (fun (_ : unit) _ (_ : unit) columns => Ret columns)
    (LISA.set_factor_mask_keys example_lisa ["SPI1"; "GATA1"]) tt
    [("DNase", [("factor_acc_z_scores", [PInt 2; PInt 3]); ("samples", [])]);
     ("Direct", [])]
    tt [("extra", [])]
  = ([("DNase", [("samples", [])]); ("Direct", [])],
     LISA.Formatted
       (Ret [("DNasefactor_accessibility_z_score",
              [PInt 3; PStr "NA"; PStr "NA"; PInt 2]);
             ("extra", [])])).
Proof.
  refine (format_results_adds_columns
            (fun (_ : unit) _ (_ : unit) columns => Ret columns)
            (LISA.set_factor_mask_keys example_lisa ["SPI1"; "GATA1"])
            ["SPI1"; "GATA1"] tt
            [("DNase", [("factor_acc_z_scores", [PInt 2; PInt 3]); ("samples", [])]);
             ("Direct", [])]
            tt [("extra", [])] eq_refl _ _).
  - apply (bool_decide_unpack _). vm_compute. exact I.
  - intros assay Hin Hclash. simpl in Hin, Hclash.
    apply list_elem_of_singleton in Hclash.
    apply elem_of_cons in Hin as [->|Hin]; [discriminate Hclash|].
    apply list_elem_of_singleton in Hin as ->. discriminate Hclash.
Defined.

Lemma dict_get_app {V} (d1 d2 : list (string * V)) (key : string) (default : V) :
  LISA.dict_get (d1 ++ d2) key default
  = LISA.dict_get d1 key (LISA.dict_get d2 key default).
Proof.
  induction d1 as [|[k v] d1 IH]; simpl; [done|].
  by destruct (String.eqb k key).
Qed.

Lemma dict_get_set {V} (d : list (string * V)) (k key : string) (v default : V) :
  LISA.dict_get (dict_set d k v) key default
  = if String.eqb k key then v else LISA.dict_get d key default.
Proof.
  induction d as [|[k' v'] d IH]; simpl; [done|].
  destruct (String.eqb_spec k' k) as [->|Hne]; simpl.
  - by destruct (String.eqb k key).
  - rewrite IH. destruct (String.eqb_spec k' key) as [->|_]; [|done].
    by destruct (String.eqb_spec k key).
Qed.

(** A dictionary built from pairs answers with the last pair of a key. *)
Lemma dict_get_py_dict {V} (pairs : list (string * V)) (key : string) (default : V) :
  LISA.dict_get (py_dict pairs) key default
  = LISA.dict_get (rev pairs) key default.
Proof.
  unfold py_dict.
  enough (∀ d,
    LISA.dict_get (fold_left (fun d kv => dict_set d kv.1 kv.2) pairs d) key default
    = LISA.dict_get (rev pairs) key (LISA.dict_get d key default)) as ->; [done|].
  induction pairs as [|[k v] pairs IH]; intros d; simpl; [done|].
  by rewrite IH, dict_get_set, dict_get_app.
Qed.

Lemma dict_get_absent {V} (d : list (string * V)) (key : string) (default : V) :
  key ∉ map fst d → LISA.dict_get d key default = default.
Proof.
  induction d as [|[k v] d IH]; simpl; [done|].
  intros [Hne Hnin]%not_elem_of_cons.
  destruct (String.eqb_spec k key); [congruence|auto].
Qed.

Lemma dict_get_last {V} (pairs : list (string * V)) (key : string) (default v : V)
    (i : nat) :
  pairs !! i = Some (key, v) →
  (∀ j kv, (i < j)%nat → pairs !! j = Some kv → kv.1 ≠ key) →
  LISA.dict_get (rev pairs) key default = v.
Proof.
  induction pairs as [|[k x] pairs IH] using rev_ind; intros Hi Hlast; [done|].
  rewrite rev_unit. simpl.
  destruct (decide (i = length pairs)) as [->|Hne].
  - rewrite lookup_app_r, Nat.sub_diag in Hi by done. injection Hi as -> ->.
    by rewrite String.eqb_refl.
  - assert (i < length pairs)%nat as Hlt.
    { apply lookup_lt_Some in Hi. rewrite length_app in Hi. simpl in Hi. lia. }
    rewrite lookup_app_l in Hi by done.
    destruct (String.eqb_spec k key) as [->|_].
    + exfalso. apply (Hlast (length pairs) (key, x) Hlt); [|done].
      by rewrite lookup_app_r, Nat.sub_diag.
    + apply IH; [done|]. intros j kv Hj Hkv. apply (Hlast j kv Hj).
      by apply lookup_app_l_Some.
Qed.

(** X24. The cells of an accessibility column.  For an assay whose
    information holds scores, the columns handed on have under
    [assay + "factor_accessibility_z_score"] one cell for every factor of
    the metadata, in their order.  A factor that is not among the mask keys
    that have a score gets "NA"; a factor that is has the score standing at
    the position of its key, the last such position if the key occurs more
    than once. *)
Theorem format_results_cells (self : LISA.t) (keys : list string)
    (assay_info : list (string * list (string * list pyval)))
    (assay : string) (info rest : list (string * list pyval))
    (z_scores : list pyval) :
  let factors := LISA_Core.factor_metadata_factor (LISA.core self) in
  LISA.factor_mask_keys self = Some keys →
  NoDup (map fst assay_info) →
  (assay, info) ∈ assay_info →
  LISA.dict_pop info "factor_acc_z_scores" = Some (z_scores, rest) →
  ∃ columns column,
    (LISA.z_score_columns (LISA.factor_mask_keys self) factors assay_info []).2
    = Some columns
    ∧ (assay +:+ "factor_accessibility_z_score", column) ∈ columns
    ∧ length column = length factors
    ∧ ∀ (n : nat) (factor : string),
        factors !! n = Some factor →
        (factor ∉ take (length z_scores) keys → column !! n = Some (PStr "NA"))
        ∧ (∀ (i : nat) (z : pyval),
             keys !! i = Some factor →
             z_scores !! i = Some z →
             (∀ j, (i < j < length z_scores)%nat → keys !! j ≠ Some factor) →
             column !! n = Some z).
Proof.
  intros factors Hkeys Hnodup Hin Hpop. rewrite Hkeys.
  rewrite z_score_columns_collects; [|done|intros ? _; apply not_elem_of_nil].
  exists (z_score_columns_of keys factors assay_info),
         (z_score_column keys factors z_scores).
  split; [done|]. split; [|split].
  - apply list_elem_of_omap. exists (assay, info). split; [done|].
    by rewrite Hpop.
  - unfold z_score_column. by rewrite length_map.
  - intros n factor Hn. unfold z_score_column.
    rewrite list_lookup_fmap, Hn. simpl. rewrite dict_get_py_dict. split.
    + intros Habsent. f_equal. apply dict_get_absent.
      intros Hmem. apply Habsent. apply list_elem_of_In in Hmem.
      rewrite map_rev in Hmem. apply in_rev, list_elem_of_In in Hmem.
      apply list_elem_of_fmap in Hmem as ([k z] & -> & Hkz).
      apply list_elem_of_lookup in Hkz as (i & Hi).
      apply lookup_zip_with_Some in Hi as (k' & z' & [= <- <-] & Hk & Hz).
      apply (list_elem_of_lookup_2 _ i). rewrite lookup_take_lt; [done|].
      by apply lookup_lt_Some in Hz.
    + intros i z Hi Hz Hlast. f_equal. apply (dict_get_last _ _ _ _ i).
      * apply lookup_zip_with_Some. by exists factor, z.
      * intros j [k x] Hj Hkx Heq. simpl in Heq. subst k.
        apply lookup_zip_with_Some in Hkx as (k' & z' & [= <- <-] & Hk & Hz').
        apply (Hlast j); [|done]. split; [done|]. by apply lookup_lt_Some in Hz'.
Qed.

Lemma format_results_cells_witness :
  ∃ columns column,
    (LISA.z_score_columns (Some ["SPI1"; "GATA1"])
       ["GATA1"; "NOSUCH"; "PU.1"; "SPI1"]
       [("DNase", [("factor_acc_z_scores", [PInt 2; PInt 3]); ("samples", [])]);
        ("Direct", [])] []).2
    = Some columns
    ∧ ("DNasefactor_accessibility_z_score", column) ∈ columns
    ∧ length column = 4%nat
    ∧ ∀ (n : nat) (factor : string),
        ["GATA1"; "NOSUCH"; "PU.1"; "SPI1"] !! n = Some factor →
        (factor ∉ take 2 ["SPI1"; "GATA1"] → column !! n = Some (PStr "NA"))
        ∧ (∀ (i : nat) (z : pyval),
             ["SPI1"; "GATA1"] !! i = Some factor →
             [PInt 2; PInt 3] !! i = Some z →
             (∀ j, (i < j < 2)%nat → ["SPI1"; "GATA1"] !! j ≠ Some factor) →
             column !! n = Some z).
Proof.
  refine (format_results_cells
            (LISA.set_factor_mask_keys example_lisa ["SPI1"; "GATA1"])
            ["SPI1"; "GATA1"]
            [("DNase", [("factor_acc_z_scores", [PInt 2; PInt 3]); ("samples", [])]);
             ("Direct", [])]
            "DNase" [("factor_acc_z_scores", [PInt 2; PInt 3]); ("samples", [])]
            [("samples", [])] [PInt 2; PInt 3] eq_refl _ _ eq_refl).
  - apply (bool_decide_unpack _). vm_compute. exact I.
  - apply list_elem_of_here.
Defined.

Lemma dict_pop_absent {V} (d : list (string * V)) (key : string) :
  key ∉ dict_keys d → LISA.dict_pop d key = None.
Proof.
  induction d as [|[k v] d IH]; simpl; [done|].
  intros [Hne Hnin]%not_elem_of_cons.
  destruct (String.eqb_spec k key); [congruence|].
  by rewrite IH.
Qed.

Lemma z_score_columns_without_scores (factor_mask_keys : option (list string))
    (factors : list string)
    (assay_info : list (string * list (string * list pyval)))
    (new_columns : list (string * list pyval)) :
  Forall (fun item => "factor_acc_z_scores" ∉ dict_keys item.2) assay_info →
  LISA.z_score_columns factor_mask_keys factors assay_info new_columns
  = (assay_info, Some new_columns).
Proof.
  induction 1 as [|[assay info] rest Hinfo _ IH]; simpl; [done|].
  by rewrite dict_pop_absent, IH.
Qed.

(** X25. When no assay's information has the key "factor_acc_z_scores",
    [_format_results] is the method of the base class: it passes on the
    caller's arguments and keywords as they are and changes nothing,
    whether or not the mask keys were ever computed. *)
Theorem format_results_without_scores {P G R : Type}
    (super_format_results :
       P → list (string * list (string * list pyval)) → G →
       list (string * list pyval) → outcome R)
    (self : LISA.t) (assay_pvals : P)
    (assay_info : list (string * list (string * list pyval)))
    (gene_info_dict : G) (kwargs : list (string * list pyval)) :
  Forall (fun item => "factor_acc_z_scores" ∉ dict_keys item.2) assay_info →
  LISA._format_results super_format_results self assay_pvals assay_info
                       gene_info_dict kwargs
  = (assay_info,
     LISA.Formatted
       (super_format_results assay_pvals assay_info gene_info_dict kwargs)).
Proof.
  intros Hnone. unfold LISA._format_results.
  by rewrite z_score_columns_without_scores.
Qed.

Lemma format_results_without_scores_witness :
  LISA._format_results (fun (_ : unit) _ (_ : unit) columns => Ret columns)
    example_lisa tt [("Direct", [("samples", [])])] tt [("extra", [])]
  = ([("Direct", [("samples", [])])], LISA.Formatted (Ret [("extra", [])])).
Proof.
  apply (format_results_without_scores
           (fun (_ : unit) _ (_ : unit) columns => Ret columns)).
  apply Forall_cons_2; [|apply Forall_nil_2].
  simpl. intros Hin%list_elem_of_singleton. discriminate Hin.
Defined.

(** X26. When the mask keys were never computed and some assay's
    information has scores, [_format_results] fails with the
    [AttributeError] of [factor_mask_keys] without calling the base class;
    by then the scores of the first such assay have been taken out of the
    caller's dictionary, and nothing else has changed. *)
Theorem format_results_unset_keys {P G R : Type}
    (super_format_results :
       P → list (string * list (string * list pyval)) → G →
       list (string * list pyval) → outcome R)
    (self : LISA.t) (assay_pvals : P)
    (before after : list (string * list (string * list pyval)))
    (assay : string) (info rest : list (string * list pyval))
    (z_scores : list pyval)
    (gene_info_dict : G) (kwargs : list (string * list pyval)) :
  LISA.factor_mask_keys self = None →
  Forall (fun item => "factor_acc_z_scores" ∉ dict_keys item.2) before →
  LISA.dict_pop info "factor_acc_z_scores" = Some (z_scores, rest) →
  LISA._format_results super_format_results self assay_pvals
                       (before ++ (assay, info) :: after) gene_info_dict kwargs
  = (before ++ (assay, rest) :: after, LISA.AttributeError "factor_mask_keys").
Proof.
  intros Hkeys Hbefore Hpop. unfold LISA._format_results. rewrite Hkeys.
  enough (∀ new_columns,
    LISA.z_score_columns None
      (LISA_Core.factor_metadata_factor (LISA.core self))
      (before ++ (assay, info) :: after) new_columns
    = (before ++ (assay, rest) :: after, None)) as ->; [done|].
  induction Hbefore as [|[a i] before Hi _ IH]; intros new_columns; simpl.
  - by rewrite Hpop.
  - by rewrite dict_pop_absent, IH.
Qed.

Lemma format_results_unset_keys_witness :
  LISA._format_results (fun (_ : unit) _ (_ : unit) columns => Ret columns)
    example_lisa tt
    [("Direct", []);
     ("DNase", [("factor_acc_z_scores", [PInt 2; PInt 3]); ("samples", [])]);
     ("H3K27ac", [("factor_acc_z_scores", [PInt 5])])]
    tt []
  = ([("Direct", []); ("DNase", [("samples", [])]);
      ("H3K27ac", [("factor_acc_z_scores", [PInt 5])])],
     LISA.AttributeError "factor_mask_keys").
Proof.
  refine (format_results_unset_keys
            (fun (_ : unit) _ (_ : unit) columns => Ret columns)
            example_lisa tt [("Direct", [])]
            [("H3K27ac", [("factor_acc_z_scores", [PInt 5])])]
            "DNase" [("factor_acc_z_scores", [PInt 2; PInt 3]); ("samples", [])]
            [("samples", [])] [PInt 2; PInt 3] tt [] eq_refl _ eq_refl).
  apply Forall_cons_2; [|apply Forall_nil_2]. apply not_elem_of_nil.
Defined.

(** ** The full [append] *)

(** The [append] used throughout is [append(text)] with its defaults; with
    [update_line] the line is written without any [end]. *)
Lemma append_with_defaults (self : Log.t) (text end_ end_' : string) :
  Log.append_with self text newline false = Log.append self text
  ∧ Log.append_with self text end_ true = Log.append_with self text end_' true.
Proof. by unfold Log.append_with, Log.append. Qed.
